(** * cfileshare: the command-line client of the file-sharing service

    A shallow embedding of [src/index.js] and the properties of its
    credential store, upload validator and screen controller.

    Strings are JavaScript strings: sequences of UTF-16 code units. *)

From Stdlib Require Import NArith String Ascii DecimalString.
From stdpp Require Import base option list gmap.

Local Open Scope N_scope.

(** ** JavaScript strings *)

Module JsString.

(** A string value, as the sequence of its code units. *)
Abbreviation text := (list N).

(** The text of an ASCII literal of the source. *)
Definition js (s : string) : text :=
  List.map N_of_ascii (list_ascii_of_string s).

(** LineTerminator of the language: LF, CR, LS, PS. *)
Definition isLineTerminator (c : N) : bool :=
  (c =? 10) || (c =? 13) || (c =? 0x2028) || (c =? 0x2029).

(** WhiteSpace or LineTerminator: what [trim] removes and [\s] matches. *)
Definition isWhiteSpace (c : N) : bool :=
  (c =? 9) || (c =? 11) || (c =? 12) || (c =? 32) || (c =? 0xA0)
  || (c =? 0x1680) || ((0x2000 <=? c) && (c <=? 0x200A))
  || (c =? 0x202F) || (c =? 0x205F) || (c =? 0x3000) || (c =? 0xFEFF)
  || isLineTerminator c.

Fixpoint trimStart (s : text) : text :=
  match s with
  | c :: s' => if isWhiteSpace c then trimStart s' else s
  | [] => []
  end.

Definition trimEnd (s : text) : text := rev (trimStart (rev s)).

(** [String.prototype.trim] *)
Definition trim (s : text) : text := trimEnd (trimStart s).

(** The characters of the class in [s.replace(/[..]/g, '')]: the double
    quote (34) and the apostrophe (39). *)
Definition isQuote (c : N) : bool := (c =? 34) || (c =? 39).

Definition stripQuotes (s : text) : text :=
  List.filter (fun c => negb (isQuote c)) s.

(** A string is truthy when it is not empty. *)
Definition nonEmpty (s : text) : bool :=
  match s with [] => false | _ :: _ => true end.

(** [x || y] on values that are a string or [undefined]. *)
Definition truthy (x : option text) : bool :=
  match x with Some s => nonEmpty s | None => false end.

Definition orElse (x : option text) (y : text) : text :=
  match x with
  | Some s => if nonEmpty s then s else y
  | None => y
  end.

(** [String.prototype.isWellFormed]: every surrogate is one half of a pair.
    Only such text comes back unchanged from a file, which holds it in
    UTF-8. *)
Definition isHighSurrogate (c : N) : bool := (0xD800 <=? c) && (c <=? 0xDBFF).
Definition isLowSurrogate (c : N) : bool := (0xDC00 <=? c) && (c <=? 0xDFFF).

Fixpoint isWellFormed (s : text) : bool :=
  match s with
  | [] => true
  | c :: s' =>
      if isHighSurrogate c then
        match s' with
        | d :: s'' => isLowSurrogate d && isWellFormed s''
        | [] => false
        end
      else negb (isLowSurrogate c) && isWellFormed s'
  end.

End JsString.
Import JsString.

(** ** The upload validator (index.js, lines 16 and 242-255) *)

Module Upload.

Definition MAX_FILE_SIZE : N := 5 * 1024 * 1024.

(** What the validator sees of the local disk: for a path, [None] when
    nothing exists there, and otherwise the size [fs.statSync] reports. *)
Definition disk := text -> option N.

Definition existsSync (d : disk) (p : text) : bool :=
  match d p with Some _ => true | None => false end.

(** [fs.statSync(p).size]; [None] when the call throws. *)
Definition statSync_size (d : disk) (p : text) : option N := d p.

(** The result of [validate]: [true], an error message, or an exception. *)
Inductive validation :=
| Accepted
| Rejected (message : text)
| Thrown.

Definition is_rejected (v : validation) : Prop :=
  match v with Rejected _ => True | _ => False end.

(** The [filter] of the prompt, which is also the first line of
    [validate]. *)
Definition filter (input : text) : text := stripQuotes (trim input).

Definition validate (d : disk) (input : text) : validation :=
  let input := stripQuotes (trim input) in
  if negb (nonEmpty input) then Rejected (js "File path is required")
  else if negb (existsSync d input) then Rejected (js "File does not exist")
  else
    match statSync_size d input with
    | None => Thrown
    | Some size =>
        if MAX_FILE_SIZE <? size
        then Rejected (js "File size exceeds maximum limit of 5MB")
        else Accepted
    end.

End Upload.

(** ** Regular expressions of the language, as the patterns below need them

    Backtracking matching in priority order: [m r s] lists the states in
    which a match of [r] that starts in state [s] can end, the one the
    language chooses first.  No pattern below has a group under a
    repetition, so captures are never reset. *)

Module Regex.

Inductive re :=
| Eps
| Chr (cls : N -> bool)           (* one code unit of a class *)
| Bol                             (* ^ under the m flag *)
| Eol                             (* $ under the m flag *)
| Seq (a b : re)
| Alt (a b : re)
| Star (greedy : bool) (a : re)   (* a* and a*? *)
| Grp (i : nat) (a : re)          (* the capturing group number i *)
| Ref (i : nat).                  (* \i *)

Definition Plus (greedy : bool) (a : re) : re := Seq a (Star greedy a).
Definition Opt (a : re) : re := Alt a Eps.
Definition cat (rs : list re) : re := foldr Seq Eps rs.
Definition only (c : N) : N -> bool := N.eqb c.
Definition noneOf (cs : list N) (c : N) : bool := negb (existsb (N.eqb c) cs).
Definition lit (s : text) : re := cat (List.map (fun c => Chr (only c)) s).

(** A position in the subject: the code unit before it (if any), what is
    left of the subject, and the captures so far (the latest first). *)
Record mstate := MState {
  before : option N;
  rest : text;
  caps : list (nat * text)
}.

Fixpoint cap (i : nat) (cs : list (nat * text)) : option text :=
  match cs with
  | (j, t) :: cs' => if Nat.eqb i j then Some t else cap i cs'
  | [] => None
  end.

Definition consumed (s s' : mstate) : text :=
  take (length (rest s) - length (rest s'))%nat (rest s).

Fixpoint is_prefix (t s : text) : bool :=
  match t, s with
  | [], _ => true
  | c :: t', d :: s' => (c =? d) && is_prefix t' s'
  | _ :: _, [] => false
  end.

Definition forward (t : text) (s : mstate) : mstate :=
  MState (match last t with Some c => Some c | None => before s end)
         (drop (length t) (rest s)) (caps s).

(** The iterations of a repetition whose body matches as [ma] says: an
    iteration that consumes nothing is dropped; [n] bounds their number by
    the length of what is left. *)
Fixpoint iter (ma : mstate -> list mstate) (greedy : bool) (n : nat)
    (s : mstate) : list mstate :=
  match n with
  | O => [s]
  | S n' =>
      let more :=
        flat_map (fun s' =>
          if Nat.ltb (length (rest s')) (length (rest s))
          then iter ma greedy n' s' else []) (ma s) in
      if greedy then more ++ [s] else s :: more
  end.

Fixpoint m (r : re) (s : mstate) : list mstate :=
  match r with
  | Eps => [s]
  | Chr cls =>
      match rest s with
      | c :: t => if cls c then [MState (Some c) t (caps s)] else []
      | [] => []
      end
  | Bol =>
      match before s with
      | None => [s]
      | Some c => if isLineTerminator c then [s] else []
      end
  | Eol =>
      match rest s with
      | [] => [s]
      | c :: _ => if isLineTerminator c then [s] else []
      end
  | Seq a b => flat_map (m b) (m a s)
  | Alt a b => m a s ++ m b s
  | Star greedy a => iter (m a) greedy (length (rest s)) s
  | Grp i a =>
      List.map (fun s' =>
        MState (before s') (rest s') ((i, consumed s s') :: caps s')) (m a s)
  | Ref i =>
      match cap i (caps s) with
      | None => [s]
      | Some t => if is_prefix t (rest s) then [forward t s] else []
      end
  end.

(** The match that starts at this very position, if any. *)
Definition match_here (r : re) (b : option N) (s : text) : option mstate :=
  head (m r (MState b s [])).

(** The leftmost match at or after the position: the text skipped before
    it, and the state at its end. *)
Fixpoint search (r : re) (b : option N) (s : text) : option (text * mstate) :=
  match match_here r b s with
  | Some e => Some ([], e)
  | None =>
      match s with
      | [] => None
      | c :: s' =>
          match search r (Some c) s' with
          | Some (skipped, e) => Some (c :: skipped, e)
          | None => None
          end
      end
  end.

(** [s.replace(r, f)] for a pattern [r] with the g flag, from the position
    [b], [s]; [f] builds the replacement from the captures.  After an empty
    match the search resumes one code unit further. *)
Fixpoint replace_from (fuel : nat) (r : re) (f : list (nat * text) -> text)
    (b : option N) (s : text) : text :=
  match fuel with
  | O => s
  | S fuel' =>
      match search r b s with
      | None => s
      | Some (skipped, e) =>
          if Nat.ltb (length (rest e)) (length s - length skipped)
          then skipped ++ f (caps e)
                 ++ replace_from fuel' r f (before e) (rest e)
          else
            match rest e with
            | [] => skipped ++ f (caps e)
            | c :: t =>
                skipped ++ f (caps e) ++ c :: replace_from fuel' r f (Some c) t
            end
      end
  end.

Definition replace_all (r : re) (f : list (nat * text) -> text) (s : text) : text :=
  replace_from (S (length s)) r f None s.

Definition group (i : nat) (cs : list (nat * text)) : text :=
  default [] (cap i cs).

End Regex.

(** ** The parser of the dotenv package

    [dotenv.parse] (dotenv 16, lib/main.js), which reads the credential file
    back: the pattern LINE is applied repeatedly to the source, and every
    match assigns one key. *)

Module Dotenv.
Import Regex.

Definition isWord (c : N) : bool :=
  ((48 <=? c) && (c <=? 57)) || ((65 <=? c) && (c <=? 90))
  || ((97 <=? c) && (c <=? 122)) || (c =? 95).

(** The class [\w.-] of a key. *)
Definition isKeyChar (c : N) : bool := isWord c || (c =? 46) || (c =? 45).

Definition any (_ : N) : bool := true.
Definition dot (c : N) : bool := negb (isLineTerminator c).

Definition ws : re := Chr isWhiteSpace.

(** A quoted value: blanks, the quote [q], then escaped quotes or other
    characters, and the quote again. *)
Definition quoted (q : N) : re :=
  cat [Star true ws; Chr (only q);
       Star true (Alt (Seq (Chr (only 92)) (Chr (only q))) (Chr (noneOf [q])));
       Chr (only q)].

(** The value of a line: quoted by an apostrophe (39), a double quote (34)
    or a backtick (96), or else anything up to a hash sign or the end of
    the line. *)
Definition VALUE : re :=
  Alt (quoted 39) (Alt (quoted 34) (Alt (quoted 96)
    (Plus true (Chr (noneOf [35; 13; 10]))))).

Definition LINE : re :=
  cat [Alt Bol Bol;
       Star true ws;
       Opt (Seq (lit (js "export")) (Plus true ws));
       Grp 1 (Plus true (Chr isKeyChar));
       Alt (cat [Star true ws; Chr (only 61); Star false ws])
           (Seq (Chr (only 58)) (Plus false ws));
       Opt (Grp 2 VALUE);
       Star true ws;
       Opt (Seq (Chr (only 35)) (Star true (Chr dot)));
       Alt Eol Eol].

(** The pattern that finds the quotes around a value: a quote at the start
    of a line, anything, and the same quote at the end of a line. *)
Definition SURROUNDING : re :=
  cat [Bol; Grp 1 (Chr (fun c => (c =? 39) || (c =? 34) || (c =? 96)));
       Grp 2 (Star true (Chr any)); Ref 1; Eol].

(** CR LF or CR *)
Definition NEWLINE : re := Seq (Chr (only 13)) (Opt (Chr (only 10))).

(** The value a match of LINE assigns to its key. *)
Definition value_of (cs : list (nat * text)) : text :=
  let value := group 2 cs in
  let value := trim value in
  let maybeQuote := head value in
  let value := replace_all SURROUNDING (group 2) value in
  if decide (maybeQuote = Some 34) then
    let value := replace_all (lit (js "\n")) (fun _ => [10]) value in
    replace_all (lit (js "\r")) (fun _ => [13]) value
  else value.

(** The loop over the matches of LINE, from the position of the last one. *)
Fixpoint parse_from (fuel : nat) (b : option N) (s : text)
    (obj : gmap text text) : gmap text text :=
  match fuel with
  | O => obj
  | S fuel' =>
      match search LINE b s with
      | None => obj
      | Some (_, e) =>
          parse_from fuel' (before e) (rest e)
            (<[group 1 (caps e) := value_of (caps e)]> obj)
      end
  end.

Definition parse (src : text) : gmap text text :=
  let lines := replace_all NEWLINE (fun _ => [10]) src in
  parse_from (S (length lines)) None lines ∅.

End Dotenv.

(** ** [path.join] of Node (POSIX) *)

Module Path.

(** The segments of a path between its separators (47). *)
Fixpoint split (s : text) : list text :=
  match s with
  | [] => [[]]
  | c :: s' =>
      if c =? 47 then [] :: split s'
      else
        match split s' with
        | seg :: segs => (c :: seg) :: segs
        | [] => [[c]]
        end
  end.

Fixpoint unsplit (segs : list text) : text :=
  match segs with
  | [] => []
  | [seg] => seg
  | seg :: segs' => seg ++ 47 :: unsplit segs'
  end.

(** One segment of [normalizeString]; [res] holds the segments kept so
    far, the last one first. *)
Definition segment (allowAboveRoot : bool) (res : list text) (seg : text)
    : list text :=
  if bool_decide (seg = []) || bool_decide (seg = js ".") then res
  else if bool_decide (seg = js "..") then
    match res with
    | top :: res' =>
        if bool_decide (top = js "..")
        then (if allowAboveRoot then seg :: res else res)
        else res'
    | [] => if allowAboveRoot then [seg] else []
    end
  else seg :: res.

Definition normalizeString (path : text) (allowAboveRoot : bool) : text :=
  unsplit (rev (foldl (segment allowAboveRoot) [] (split path))).

Definition normalize (path : text) : text :=
  if negb (nonEmpty path) then js "."
  else
    let isAbsolute := bool_decide (head path = Some 47) in
    let trailingSeparator := bool_decide (last path = Some 47) in
    let path := normalizeString path (negb isAbsolute) in
    if negb (nonEmpty path) then
      if isAbsolute then js "/"
      else if trailingSeparator then js "./" else js "."
    else
      let path := if trailingSeparator then path ++ [47] else path in
      if isAbsolute then 47 :: path else path.

Definition join (args : list text) : text :=
  match List.filter nonEmpty args with
  | [] => js "."
  | parts => normalize (unsplit parts)
  end.

End Path.

(** ** The client (index.js)

    The program runs in a world: the local files, the answers the user will
    give and the replies the service will send, and what the program has
    done so far.  Every screen is a computation over the world that returns,
    throws, ends the process, or is still waiting when the run is cut.

    What the world does not do: a prompt always resolves, with an answer of
    its kind; writing a file succeeds, and a file holds the text or the
    bytes written to it (the UTF-8 coding between the two is not modelled);
    the body of a reply is a JSON object with the members the client reads,
    or something with no members. *)

Module Cli.

(** *** Values *)

Definition nl : text := [10].
Definition cross : text := [0x274C].          (* U+274C *)
Definition sparkles : text := [0x2728].       (* U+2728 *)
Definition outbox : text := [0xD83D; 0xDCE4]. (* U+1F4E4 *)
Definition folder : text := [0xD83D; 0xDCC2]. (* U+1F4C2 *)
Definition page : text := [0xD83D; 0xDCC4].   (* U+1F4C4 *)

(** A number in a template literal. *)
Definition decimal (n : N) : text :=
  js (DecimalString.NilZero.string_of_uint (N.to_uint n)).

(** A file record of the service's listing. *)
Record file_record := FileRecord { file_id : N; file_name : text }.

(** The members the client reads of a JSON body. *)
Record json := Json {
  j_auth_token : option text;
  j_files : option (list file_record);
  j_error : option text;
  j_message : option text
}.

(** A body as the service sends it: its bytes, and its members when it is
    a JSON object. *)
Record body := Body { raw : text; members : option json }.

(** [response.data]: the parsed object, or the raw body (a string, or a
    buffer when the response type is arraybuffer). *)
Inductive data :=
| Parsed (o : json)
| Raw (b : text).

Definition auth_token (d : data) : option text :=
  match d with Parsed o => j_auth_token o | Raw _ => None end.
Definition files (d : data) : option (list file_record) :=
  match d with Parsed o => j_files o | Raw _ => None end.
Definition error (d : data) : option text :=
  match d with Parsed o => j_error o | Raw _ => None end.
Definition message (d : data) : option text :=
  match d with Parsed o => j_message o | Raw _ => None end.
Definition bytes (d : data) : text :=
  match d with Parsed _ => [] | Raw b => b end.

Record response := Response { status : N; response_data : data }.

(** An error value: its name and message, and the [response] and
    [request] members axios sets. *)
Record js_error := JsError {
  e_name : text;
  e_response : option response;
  e_request : bool;
  e_message : text
}.

(** *** Requests and replies *)

Inductive method := GET | POST.

Inductive payload :=
| NoPayload
| JsonPayload (fields : list (text * text))
| FormFile (field : text) (filePath : text).

Record request := Request {
  verb : method;
  url : text;
  params : list (text * text);
  headers : list (text * option text);
  sent : payload;
  arraybuffer : bool
}.

(** What the network does with a request: a reply of the service, no
    reply at all, or a request that could not be sent. *)
Inductive reply :=
| Replied (code : N) (b : body)
| NoResponse (why : text)
| NotSent (why : text).

(** *** The user *)

Inductive main_option := AccessEndpoint | CreateEndpoint | Exit.
Inductive action := UploadFile | DownloadFile | BackToMenu.

(** What a prompt resolves with: the choice of the main menu, the two
    inputs of the access and create screens, the action of the file manager,
    the path of the upload prompt, the index of the download prompt. *)
Inductive answer :=
| Choice (o : main_option)
| Credentials (endpointName password : text)
| Action (a : action)
| FilePath (filePath : text)
| FileIndex (fileIndex : nat).

(** *** What the program does *)

(** The members of [styles]; [failure] is [styles.error]. *)
Inductive style := title | failure | success | info | menu | endpoint.

(** A string for the console: plain, or through one of [styles]. *)
Definition rendered := (option style * text)%type.

Inductive event :=
| Clear
| Log (line : rendered)                   (* console.log *)
| LogError (line : rendered)              (* console.error *)
| Prompt (messages : list text)           (* inquirer.prompt *)
| Http (r : request)                      (* axios *)
| Sleep (ms : N)                          (* setTimeout *)
| WriteFile (path : text) (content : text)
| Mkdir (path : text).

(** The download directory: there, absent, or absent with something in the
    way of creating it. *)
Inductive dir_state := Present | Absent | Blocked (why : text).

Record world := World {
  homedir : text;                 (* os.homedir() *)
  download_dir : dir_state;
  disk : gmap text text;          (* the regular files, by path *)
  styles_ready : bool;            (* is the binding [styles] initialised *)
  stdin : list answer;
  network : list reply;
  trace : list event
}.

(** The world with one member changed. *)
Definition set_download_dir (d : dir_state) (w : world) : world :=
  let 'World h _ k s i n t := w in World h d k s i n t.
Definition set_disk (k : gmap text text) (w : world) : world :=
  let 'World h d _ s i n t := w in World h d k s i n t.
Definition set_styles_ready (s : bool) (w : world) : world :=
  let 'World h d k _ i n t := w in World h d k s i n t.
Definition set_stdin (i : list answer) (w : world) : world :=
  let 'World h d k s _ n t := w in World h d k s i n t.
Definition set_network (n : list reply) (w : world) : world :=
  let 'World h d k s i _ t := w in World h d k s i n t.
Definition add_trace (es : list event) (w : world) : world :=
  let 'World h d k s i n t := w in World h d k s i n (t ++ es).

(** *** Computations *)

Inductive outcome (A : Type) :=
| Returned (a : A)
| Threw (e : js_error)
| Exited (code : N)       (* process.exit *)
| Pending.                (* no answer, no reply, or the run was cut *)
Arguments Returned {A} a.
Arguments Threw {A} e.
Arguments Exited {A} code.
Arguments Pending {A}.

Definition M (A : Type) : Type := world -> outcome A * world.

Definition ret {A} (a : A) : M A := fun w => (Returned a, w).

Definition bind {A B} (c : M A) (k : A -> M B) : M B :=
  fun w =>
    match c w with
    | (Returned a, w') => k a w'
    | (Threw e, w') => (Threw e, w')
    | (Exited code, w') => (Exited code, w')
    | (Pending, w') => (Pending, w')
    end.

Definition throw {A} (e : js_error) : M A := fun w => (Threw e, w).

(** try { c } catch (error) { h error } *)
Definition try_catch {A} (c : M A) (h : js_error -> M A) : M A :=
  fun w =>
    match c w with
    | (Threw e, w') => h e w'
    | r => r
    end.

Definition pending {A} : M A := fun w => (Pending, w).

Declare Scope cli_scope.
Delimit Scope cli_scope with cli.
Notation "'let*' x ':=' c 'in' k" := (bind c (fun x => k))
  (at level 10, x pattern, c at level 100, k at level 200) : cli_scope.
Notation "c '>>' k" := (bind c (fun _ => k))
  (at level 90, right associativity) : cli_scope.
Local Open Scope cli_scope.

Definition emit (e : event) : M unit :=
  fun w => (Returned tt, add_trace [e] w).

(** *** The runtime and the packages *)

Definition clear : M unit := emit Clear.
Definition console_log (line : rendered) : M unit := emit (Log line).
Definition console_error (line : rendered) : M unit := emit (LogError line).
Definition plain (s : text) : rendered := (None, s).

Definition ReferenceError (binding : text) : js_error :=
  JsError (js "ReferenceError") None false
          (js "Cannot access '" ++ binding ++ js "' before initialization").

(** [styles.x(s)]: reading [styles] before its declaration has run throws. *)
Definition styles (x : style) (s : text) : M rendered :=
  fun w =>
    if styles_ready w then (Returned (Some x, s), w)
    else (Threw (ReferenceError (js "styles")), w).

(** await new Promise(resolve => setTimeout(resolve, ms)) *)
Definition sleep (ms : N) : M unit := emit (Sleep ms).

Definition process_exit {A} (code : N) : M A := fun w => (Exited code, w).

Definition next_answer : M answer :=
  fun w =>
    match stdin w with
    | a :: rest => (Returned a, set_stdin rest w)
    | [] => (Pending, w)
    end.

(** [inquirer.prompt]: the prompt is shown and resolves with the next
    answer, which is of the kind the prompt asks for. *)
Definition prompt {A} (messages : list text) (pick : answer -> option A) : M A :=
  emit (Prompt messages) >>
  let* a := next_answer in
  match pick a with
  | Some x => ret x
  | None => pending
  end.

Definition fs_error (code what : text) (path : text) : js_error :=
  JsError (js "Error") None false
          (code ++ js ": " ++ what ++ js ", open '" ++ path ++ js "'").

(** [fs.writeFileSync]: the file is created or replaced. *)
Definition writeFileSync (path : text) (content : text) : M unit :=
  fun w =>
    (Returned tt,
     add_trace [WriteFile path content] (set_disk (<[path := content]> (disk w)) w)).

(** [fs.readFileSync]: throws when there is no such file. *)
Definition readFileSync (path : text) : M text :=
  fun w =>
    match disk w !! path with
    | Some content => (Returned content, w)
    | None => (Threw (fs_error (js "ENOENT") (js "no such file or directory") path), w)
    end.

(** [axios]: a reply with a status from 200 to 299 resolves; any other
    outcome rejects. *)
Definition seen (r : request) (b : body) : data :=
  if arraybuffer r then Raw (raw b)
  else match members b with Some o => Parsed o | None => Raw (raw b) end.

Definition is_2xx (code : N) : bool := (200 <=? code) && (code <? 300).

(** How a request settles on a reply: resolved with the response, or
    rejected with an error. *)
Definition settle (r : request) (rep : reply) : response + js_error :=
  match rep with
  | Replied code b =>
      let res := Response code (seen r b) in
      if is_2xx code then inl res
      else inr (JsError (js "AxiosError") (Some res) true
                  (js "Request failed with status code " ++ decimal code))
  | NoResponse why => inr (JsError (js "AxiosError") None true why)
  | NotSent why => inr (JsError (js "AxiosError") None false why)
  end.

Definition axios (r : request) : M response :=
  emit (Http r) >>
  fun w =>
    match network w with
    | [] => (Pending, w)
    | rep :: rest =>
        match settle r rep with
        | inl res => (Returned res, set_network rest w)
        | inr e => (Threw e, set_network rest w)
        end
    end.

(** *** Constants (lines 14-15) *)

Definition API_URL : text :=
  js "https://filesharingcli-production.up.railway.app".

Definition DOWNLOAD_DIR (w : world) : text :=
  Path.join [homedir w; js "Downloads"; js "cfileshare"].

Definition the_download_dir : M text := fun w => (Returned (DOWNLOAD_DIR w), w).

(** *** The four requests (lines 102, 156-159, 264-273, 310-316) *)

(** axios.get(`${API_URL}/site/${endpointName}`, { params: { password } }) *)
Definition get_site (endpointName password : text) : request :=
  Request GET (API_URL ++ js "/site/" ++ endpointName)
          [(js "password", password)] [] NoPayload false.

(** axios.post(`${API_URL}/createsite`, { site_name, password }) *)
Definition post_createsite (endpointName password : text) : request :=
  Request POST (API_URL ++ js "/createsite") [] []
          (JsonPayload [(js "site_name", endpointName); (js "password", password)])
          false.

(** axios.post(`${API_URL}/upload/${endpointName}`, formData, { headers });
    the headers of the form are its content type (the boundary is left
    out) and then Authorization. *)
Definition post_upload (endpointName filePath : text) (authToken : option text)
    : request :=
  Request POST (API_URL ++ js "/upload/" ++ endpointName) []
          [(js "content-type", Some (js "multipart/form-data"));
           (js "Authorization", authToken)]
          (FormFile (js "file") filePath) false.

(** axios.get(`${API_URL}/getfile/${id}`, { headers, responseType }) *)
Definition get_file (id : N) (authToken : option text) : request :=
  Request GET (API_URL ++ js "/getfile/" ++ decimal id) []
          [(js "Authorization", authToken)] NoPayload true.

(** *** The credential file (lines 105, 162 and 261, 307) *)

Definition credential_file : text := js ".env".

(** fs.writeFileSync('.env', `auth_token=${token}`) *)
Definition save_credential (token : text) : M unit :=
  writeFileSync credential_file (js "auth_token=" ++ token).

(** dotenv.parse(fs.readFileSync('.env')).auth_token *)
Definition load_credential : M (option text) :=
  let* content := readFileSync credential_file in
  ret (Dotenv.parse content !! js "auth_token").

(** *** Start of the module (lines 18-26) *)

Definition existsSync_download_dir : M bool :=
  fun w =>
    (Returned (match download_dir w with Present => true | _ => false end), w).

(** fs.mkdirSync(DOWNLOAD_DIR, { recursive: true }) *)
Definition mkdirSync_download_dir : M unit :=
  fun w =>
    match download_dir w with
    | Blocked why => (Threw (JsError (js "Error") None false why), w)
    | _ => (Returned tt, add_trace [Mkdir (DOWNLOAD_DIR w)] (set_download_dir Present w))
    end.

Definition create_download_dir : M unit :=
  try_catch
    (let* there := existsSync_download_dir in
     if negb there then mkdirSync_download_dir else ret tt)
    (fun error =>
       (let* line := styles failure
          (nl ++ js "Error creating downloads directory: " ++ e_message error) in
        console_error line) >>
       process_exit 1).

(** const styles = { ... } (line 29) *)
Definition declare_styles : M unit :=
  fun w => (Returned tt, set_styles_ready true w).

(** *** The screens *)

(** console.log(styles.x(s)) *)
Definition say (x : style) (s : text) : M unit :=
  let* line := styles x s in console_log line.

Definition showHeader : M unit :=
  clear >>
  say title (nl ++ js "     CShare - Secure File Sharing" ++ nl).

Definition pause_then {A} (next : M A) : M A :=
  sleep 2000 >> next.

(** Lines 55-80.  The screens it opens are its parameters. *)
Definition showMainMenu_body (accessEndpoint createEndpoint : M unit) : M unit :=
  showHeader >>
  let* option := prompt [js "Select an option:"]
                   (fun a => match a with Choice o => Some o | _ => None end) in
  match option with
  | AccessEndpoint => accessEndpoint
  | CreateEndpoint => createEndpoint
  | Exit => process_exit 0
  end.

Definition ask_credentials (m1 m2 : text) : M (text * text) :=
  prompt [m1; m2]
    (fun a => match a with Credentials n p => Some (n, p) | _ => None end).

(** The message of the inner catch of [accessEndpoint] (lines 109-125). *)
Definition access_failure (error : js_error) : text :=
  match e_response error with
  | Some res =>
      if status res =? 404 then nl ++ cross ++ js " Error: Endpoint not found"
      else if status res =? 401 then nl ++ cross ++ js " Error: Invalid password"
      else nl ++ cross ++ js " Error: "
             ++ orElse (Cli.error (response_data res)) (js "Unknown error")
  | None =>
      if e_request error
      then nl ++ cross ++ js " Error: Server not responding. Is the server running?"
      else nl ++ cross ++ js " Error: " ++ e_message error
  end.

(** Lines 83-134. *)
Definition accessEndpoint_body (showMainMenu : M unit)
    (showFileManager : text -> list file_record -> text -> M unit) : M unit :=
  showHeader >>
  try_catch
    (let* (endpointName, password) :=
       ask_credentials (js "Endpoint name:") (js "Password:") in
     say info (nl ++ js "Accessing endpoint...") >>
     try_catch
       (let* response := axios (get_site endpointName password) in
        if truthy (auth_token (response_data response)) then
          save_credential (default [] (auth_token (response_data response))) >>
          showFileManager endpointName
            (default [] (files (response_data response))) password
        else ret tt)
       (fun error =>
          say failure (access_failure error) >>
          pause_then showMainMenu))
    (fun error =>
       say failure (nl ++ cross ++ js " Error: " ++ e_message error) >>
       pause_then showMainMenu).

(** The message of the inner catch of [createEndpoint] (lines 167-177). *)
Definition create_failure (error : js_error) : text :=
  match e_response error with
  | Some res =>
      let errorMessage :=
        orElse (Cli.error (response_data res))
               (orElse (message (response_data res)) (js "Unknown error")) in
      nl ++ cross ++ js " Error: " ++ errorMessage
  | None =>
      if e_request error
      then nl ++ cross ++ js " Error: Server not responding. Is the server running?"
      else nl ++ cross ++ js " Error: " ++ e_message error
  end.

(** Lines 137-186. *)
Definition createEndpoint_body (showMainMenu : M unit) : M unit :=
  showHeader >>
  try_catch
    (let* (endpointName, password) :=
       ask_credentials (js "New endpoint name:") (js "Set password:") in
     say info (nl ++ js "Creating endpoint...") >>
     try_catch
       (let* response := axios (post_createsite endpointName password) in
        (if truthy (auth_token (response_data response)) then
           save_credential (default [] (auth_token (response_data response))) >>
           say success (nl ++ sparkles ++ js " Endpoint created successfully!")
         else ret tt) >>
        showMainMenu)
       (fun error =>
          say failure (create_failure error) >>
          pause_then showMainMenu))
    (fun error =>
       say failure (nl ++ cross ++ js " Error: " ++ e_message error) >>
       pause_then showMainMenu).

(** files.forEach((file, index) => ...) *)
Fixpoint forEach {A} (f : A -> nat -> M unit) (index : nat) (l : list A) : M unit :=
  match l with
  | [] => ret tt
  | x :: l' => f x index >> forEach f (S index) l'
  end.

(** Lines 189-232. *)
Definition showFileManager_body (showMainMenu : M unit)
    (showFileManager : text -> list file_record -> text -> M unit)
    (uploadFile : text -> text -> M unit)
    (downloadFile : text -> list file_record -> text -> M unit)
    (endpointName : text) (files : list file_record) (password : text) : M unit :=
  showHeader >>
  say info (nl ++ js "Endpoint: " ++ endpointName) >>
  say endpoint (js "GET /site/" ++ endpointName ++ nl) >>
  (if Nat.eqb (length files) 0 then console_log (plain (js "No files found" ++ nl))
   else
     forEach (fun file index =>
       console_log (plain (decimal (N.of_nat (index + 1)) ++ js ". " ++ page
                             ++ js " " ++ file_name file))) 0 files >>
     console_log (plain [])) >>
  let* action := prompt [js "Choose action:"]
                   (fun a => match a with Action x => Some x | _ => None end) in
  match action with
  | UploadFile => uploadFile endpointName password
  | DownloadFile =>
      if Nat.ltb 0 (length files) then downloadFile endpointName files password
      else
        say info (nl ++ js "No files to download") >>
        showFileManager endpointName files password
  | BackToMenu => showMainMenu
  end.

(** error.response?.data?.error *)
Definition response_error (error : js_error) : option text :=
  match e_response error with
  | Some res => Cli.error (response_data res)
  | None => None
  end.

(** Lines 235-289.  The prompt resolves with the path that has passed
    [Upload.filter] and [Upload.validate]. *)
Definition uploadFile_body
    (showFileManager : text -> list file_record -> text -> M unit)
    (endpointName password : text) : M unit :=
  try_catch
    (let* filePath :=
       prompt [folder ++ js " Enter file path or drag & drop file here:"]
         (fun a => match a with FilePath p => Some p | _ => None end) in
     let* authToken := load_credential in
     say info (nl ++ outbox ++ js " Uploading file...") >>
     axios (post_upload endpointName filePath authToken) >>
     say success (nl ++ sparkles ++ js " File uploaded successfully!") >>
     let* siteResponse := axios (get_site endpointName password) in
     showFileManager endpointName
       (default [] (files (response_data siteResponse))) password)
    (fun error =>
       (if truthy (response_error error)
        then say failure (nl ++ cross ++ js " Error: "
                            ++ default [] (response_error error))
        else say failure (nl ++ cross ++ js " Error: " ++ e_message error)) >>
       showFileManager endpointName [] password).

Definition TypeError (what : text) : js_error :=
  JsError (js "TypeError") None false what.

(** Lines 292-326. *)
Definition downloadFile_body
    (showFileManager : text -> list file_record -> text -> M unit)
    (endpointName : text) (files : list file_record) (password : text) : M unit :=
  try_catch
    (let* fileIndex :=
       prompt [js "Select file to download:"]
         (fun a => match a with
                   | FileIndex i => if Nat.ltb i (length files) then Some i else None
                   | _ => None
                   end) in
     match files !! fileIndex with
     | None =>
         throw (TypeError (js "Cannot read properties of undefined (reading 'id')"))
     | Some selectedFile =>
         let* authToken := load_credential in
         say info (nl ++ js "Downloading file...") >>
         let* response := axios (get_file (file_id selectedFile) authToken) in
         let* dir := the_download_dir in
         let downloadPath := Path.join [dir; file_name selectedFile] in
         writeFileSync downloadPath (bytes (response_data response)) >>
         say success (nl ++ sparkles ++ js " File downloaded to: " ++ downloadPath) >>
         showFileManager endpointName files password
     end)
    (fun error =>
       say failure (nl ++ cross ++ js " Error: "
                      ++ orElse (response_error error) (e_message error)) >>
       showFileManager endpointName files password).

(** The screens call one another without end; [fuel] bounds the number of
    screens a run opens, and a run that is cut is [Pending]. *)
Fixpoint showMainMenu (fuel : nat) (w : world) {struct fuel}
    : outcome unit * world :=
  match fuel with
  | O => pending w
  | S n => showMainMenu_body (accessEndpoint n) (createEndpoint n) w
  end
with accessEndpoint (fuel : nat) (w : world) {struct fuel}
    : outcome unit * world :=
  match fuel with
  | O => pending w
  | S n => accessEndpoint_body (showMainMenu n) (showFileManager n) w
  end
with createEndpoint (fuel : nat) (w : world) {struct fuel}
    : outcome unit * world :=
  match fuel with
  | O => pending w
  | S n => createEndpoint_body (showMainMenu n) w
  end
with showFileManager (fuel : nat) (endpointName : text)
    (files : list file_record) (password : text) (w : world) {struct fuel}
    : outcome unit * world :=
  match fuel with
  | O => pending w
  | S n =>
      showFileManager_body (showMainMenu n) (showFileManager n)
        (uploadFile n) (downloadFile n) endpointName files password w
  end
with uploadFile (fuel : nat) (endpointName password : text) (w : world)
    {struct fuel} : outcome unit * world :=
  match fuel with
  | O => pending w
  | S n => uploadFile_body (showFileManager n) endpointName password w
  end
with downloadFile (fuel : nat) (endpointName : text)
    (files : list file_record) (password : text) (w : world) {struct fuel}
    : outcome unit * world :=
  match fuel with
  | O => pending w
  | S n => downloadFile_body (showFileManager n) endpointName files password w
  end.

(** *** The process (lines 18-36 and 329) *)

Definition String_error (error : js_error) : text :=
  e_name error ++ js ": " ++ e_message error.

Definition main (fuel : nat) : M unit :=
  create_download_dir >>
  declare_styles >>
  try_catch (showMainMenu fuel)
    (fun error =>
       let* line := styles failure (js "Error: " ++ String_error error) in
       console_error line).

(** How the process ends: with an exit code, by an exception nobody
    caught (the runtime prints it and the exit code is 1), or not yet. *)
Inductive ending :=
| ExitCode (code : N)
| Uncaught (e : js_error)
| Running.

Definition run (fuel : nat) (w : world) : ending * world :=
  match main fuel w with
  | (Returned _, w') => (ExitCode 0, w')
  | (Threw e, w') => (Uncaught e, w')
  | (Exited code, w') => (ExitCode code, w')
  | (Pending, w') => (Running, w')
  end.

Definition exit_code (e : ending) : option N :=
  match e with
  | ExitCode code => Some code
  | Uncaught _ => Some 1
  | Running => None
  end.

End Cli.



(** ** Vocabulary of the properties *)

Import Cli.
Local Open Scope cli_scope.

Module Facts.

(** A disk with one file, of the given size. *)
Definition one_file (path : text) (size : N) : Upload.disk :=
  fun p => if bool_decide (p = path) then Some size else None.

(** The tokens the credential file gives back unchanged: no hash sign (35)
    and no line terminator in them, no blank at either end, no quote
    (39, 34, 96) at the start, and well-formed text. *)
Definition storable (T : text) : bool :=
  forallb (fun c => negb (c =? 35) && negb (isLineTerminator c)) T
  && match head T with
     | Some c => negb (isWhiteSpace c)
                 && negb ((c =? 39) || (c =? 34) || (c =? 96))
     | None => true
     end
  && match last T with
     | Some c => negb (isWhiteSpace c)
     | None => true
     end
  && isWellFormed T.

(** The world once [answers] answers and [replies] replies are taken. *)
Definition consume (answers replies : nat) (w : world) : world :=
  set_network (drop replies (network w)) (set_stdin (drop answers (stdin w)) w).

(** The world after a step that took [answers] answers and [replies]
    replies and did [events]; the files are as they were. *)
Definition advance (answers replies : nat) (events : list event) (w : world)
    : world :=
  add_trace events (consume answers replies w).

(** The world with one file written. *)
Definition with_file (path content : text) (w : world) : world :=
  set_disk (<[path := content]> (disk w)) w.

(** The requests, the file writes and the console lines among some events. *)
Definition requests (es : list event) : list request :=
  omap (fun e => match e with Http r => Some r | _ => None end) es.

Definition writes (es : list event) : list (text * text) :=
  omap (fun e => match e with WriteFile p c => Some (p, c) | _ => None end) es.

Definition logged (es : list event) : list rendered :=
  omap (fun e => match e with Log l => Some l | _ => None end) es.

(** The events every screen with a header starts with. *)
Definition header : list event :=
  [Clear; Log (Some title, nl ++ js "     CShare - Secure File Sharing" ++ nl)].

(** The events of the access and create screens up to the request. *)
Definition access_events (name pw : text) : list event :=
  header ++ [Prompt [js "Endpoint name:"; js "Password:"];
             Log (Some info, nl ++ js "Accessing endpoint...");
             Http (get_site name pw)].

Definition create_events (name pw : text) : list event :=
  header ++ [Prompt [js "New endpoint name:"; js "Set password:"];
             Log (Some info, nl ++ js "Creating endpoint...");
             Http (post_createsite name pw)].

Definition upload_prompt : event :=
  Prompt [folder ++ js " Enter file path or drag & drop file here:"].

Definition download_prompt : event := Prompt [js "Select file to download:"].

(** The events of an upload the service accepted, and of a download. *)
Definition upload_events (name pw path : text) (authToken : option text)
    : list event :=
  [upload_prompt;
   Log (Some info, nl ++ outbox ++ js " Uploading file...");
   Http (post_upload name path authToken);
   Log (Some success, nl ++ sparkles ++ js " File uploaded successfully!");
   Http (get_site name pw)].

Definition download_events (f : file_record) (authToken : option text)
    (downloadPath content : text) : list event :=
  [download_prompt;
   Log (Some info, nl ++ js "Downloading file...");
   Http (get_file (file_id f) authToken);
   WriteFile downloadPath content;
   Log (Some success, nl ++ sparkles ++ js " File downloaded to: " ++ downloadPath)].

(** The file list was fetched again: the site request is among the events. *)
Definition refetched (endpointName password : text) (es : list event) : Prop :=
  In (get_site endpointName password) (requests es).

(** The file manager of an endpoint was shown: its first line is among the
    events. *)
Definition file_manager_shown (endpointName : text) (es : list event) : Prop :=
  In (Some info, nl ++ js "Endpoint: " ++ endpointName) (logged es).

(** A computation keeps the binding [styles] initialised; a quiet one also
    throws nothing. *)
Definition keeps {A} (c : M A) : Prop :=
  forall w, styles_ready w = true -> styles_ready (snd (c w)) = true.

Definition quiet {A} (c : M A) : Prop :=
  forall w, styles_ready w = true ->
    styles_ready (snd (c w)) = true /\ forall e, fst (c w) <> Threw e.

(** A segment of a path that names a file in its directory: not empty, no
    separator in it, and neither [.] nor [..]. *)
Definition noSeparator (seg : text) : bool := forallb (fun c => negb (c =? 47)) seg.

Definition plainName (seg : text) : bool :=
  nonEmpty seg && noSeparator seg
  && negb (bool_decide (seg = js ".")) && negb (bool_decide (seg = js "..")).

(** The segments [normalizeString] keeps, the last one first: plain names
    above parent segments, which stay only when [allowAboveRoot]. *)
Inductive kept (allowAboveRoot : bool) : list text -> Prop :=
| kept_nil : kept allowAboveRoot []
| kept_parent st :
    allowAboveRoot = true -> kept allowAboveRoot st ->
    match st with [] => True | top :: _ => top = js ".." end ->
    kept allowAboveRoot (js ".." :: st)
| kept_name seg st :
    plainName seg = true -> kept allowAboveRoot st ->
    kept allowAboveRoot (seg :: st).

(** The state of a match once it has gone over [T] and [r] is left. *)
Definition after (T : text) (r : text) (s : Regex.mstate) : Regex.mstate :=
  Regex.MState (match last T with Some c => Some c | None => Regex.before s end)
               r (Regex.caps s).

(** Worlds and values of the examples. *)
Definition a_txt : file_record := FileRecord 1 (js "a.txt").
Definition b_txt : file_record := FileRecord 2 (js "b.txt").

Definition json_reply (code : N) (token : option text)
    (listing : option (list file_record)) (err : option text) : reply :=
  Replied code (Body [] (Some (Json token listing err None))).

Definition ready (files : gmap text text) (answers : list answer)
    (replies : list reply) : world :=
  World (js "/home/u") Present files true answers replies [].

Definition with_credential : gmap text text :=
  {[ credential_file := js "auth_token=abc" ]}.


(** The events of the main menu and of the file manager up to its prompt. *)
Definition menu_prompt : event := Prompt [js "Select an option:"].

Definition action_prompt : event := Prompt [js "Choose action:"].

(** The line of the file at [index] of the list (the first index is 0). *)
Definition file_line (index : nat) (file : file_record) : event :=
  Log (None, decimal (N.of_nat (index + 1)) ++ js ". " ++ page ++ js " "
               ++ file_name file).

Definition listing (files : list file_record) : list event :=
  match files with
  | [] => [Log (None, js "No files found" ++ nl)]
  | _ :: _ => imap file_line files ++ [Log (None, [])]
  end.

Definition file_manager_events (name : text) (files : list file_record)
    : list event :=
  header
  ++ [Log (Some info, nl ++ js "Endpoint: " ++ name);
      Log (Some endpoint, js "GET /site/" ++ name ++ nl)]
  ++ listing files ++ [action_prompt].

(** The line both catch blocks of the transfers log: the error member of
    the response body, or else the message of the error. *)
Definition transfer_failure (error : js_error) : event :=
  Log (Some failure,
       nl ++ cross ++ js " Error: " ++ orElse (response_error error) (e_message error)).

(** What a screen may do, in a process whose home directory is [home]:
    talk to the user on the console, pause for 2000 ms, send one of the
    four requests, write a credential that is not empty to the credential
    file, and write a file to a path joined to the download directory. *)
Definition allowed (home : text) (e : event) : Prop :=
  match e with
  | Clear | Log _ | Prompt _ => True
  | LogError _ | Mkdir _ => False
  | Sleep ms => ms = 2000
  | Http r =>
      (exists name pw, r = get_site name pw)
      \/ (exists name pw, r = post_createsite name pw)
      \/ (exists name path authToken, r = post_upload name path authToken)
      \/ (exists id authToken, r = get_file id authToken)
  | WriteFile path content =>
      (path = credential_file
       /\ exists token, token <> [] /\ content = js "auth_token=" ++ token)
      \/ (exists name,
            path = Path.join [Path.join [home; js "Downloads"; js "cfileshare"]; name])
  end.

(** A computation is tame from a world when it keeps [styles] initialised
    and the home directory as it is, does only what is allowed, and ends
    the process, if it does, with the exit code 0. *)
Definition tame_at {A} (w : world) (c : M A) : Prop :=
  styles_ready (snd (c w)) = true
  /\ homedir (snd (c w)) = homedir w
  /\ (exists es, trace (snd (c w)) = trace w ++ es
                 /\ Forall (allowed (homedir w)) es)
  /\ (forall code, fst (c w) = Exited code -> code = 0).

Definition tame {A} (c : M A) : Prop :=
  forall w, styles_ready w = true -> tame_at w c.

(** The directories the program has made. *)
Definition mkdirs (es : list event) : list text :=
  omap (fun e => match e with Mkdir p => Some p | _ => None end) es.

(** The world in which the first screen opens: the download directory is
    there, made if it was not, and [styles] is initialised. *)
Definition started (w : world) : world :=
  set_styles_ready true
    match download_dir w with
    | Present => w
    | _ => add_trace [Mkdir (DOWNLOAD_DIR w)] (set_download_dir Present w)
    end.

(** A computation takes at least [d] answers before it returns or throws. *)
Definition shrinks (d : nat) {A} (c : M A) : Prop :=
  forall w,
    match fst (c w) with
    | Returned _ | Threw _ => (length (stdin (snd (c w))) + d <= length (stdin w))%nat
    | _ => True
    end.

(** Two computations do the same from every world with fewer than [m]
    answers left. *)
Definition agree (m : nat) {A} (c c' : M A) : Prop :=
  forall w, (length (stdin w) < m)%nat -> c w = c' w.

(** A file name with no parent segment ([..]) between its separators. *)
Definition noParent (name : text) : bool :=
  forallb (fun seg => negb (bool_decide (seg = js ".."))) (Path.split name).

(** The segments of a name that [normalizeString] keeps when none of them
    is a parent segment: all but the empty ones and [.]. *)
Definition named (segs : list text) : list text :=
  List.filter (fun seg => negb (bool_decide (seg = []) || bool_decide (seg = js "."))) segs.

(** A normal form [D]: the root if the path is absolute, and the segments
    [st] that are kept, the last one first. *)
Definition normal (abs : bool) (st : list text) (D : text) : Prop :=
  st <> [] /\ kept (negb abs) st
  /\ D = (if abs then [47] else []) ++ Path.unsplit (rev st).

(** A first run of the program: the download directory is made, the user
    creates the endpoint demo and leaves. *)
Definition create_run : world :=
  World (js "/home/u") Absent ∅ false
    [Choice CreateEndpoint; Credentials (js "demo") (js "pw"); Choice Exit]
    [json_reply 200 (Some (js "abc")) None None] [].

End Facts.
Import Facts.

(** ** The upload validator *)

Lemma filter_is_normalisation input :
  Upload.filter input = stripQuotes (trim input).
Proof. reflexivity. Qed.

(** C2, as stated, fails: the path [ a.txt] (with a blank in front) exists
    and holds one byte, and the validator rejects it, because it looks for
    [a.txt]. *)
Lemma validate_rejects_existing_small_path :
  ~ (one_file (js " a.txt") 1 (js " a.txt") = Some 1 ->
     1 <= Upload.MAX_FILE_SIZE ->
     Upload.validate (one_file (js " a.txt") 1) (js " a.txt") = Upload.Accepted).
Proof.
  intros H. specialize (H eq_refl). vm_compute in H.
  assert (Hle : (1 ?= 5242880) <> Gt) by discriminate.
  specialize (H Hle). discriminate H.
Qed.

(** C2, amended: the validator decides on the path [p] it gets from its
    input by trimming it and dropping the quote characters.  If nothing
    exists at [p] the input is rejected; if [p] exists and is larger than
    5 * 1024 * 1024 bytes the input is rejected; if [p] is not empty, exists
    and is at most that large, the input is accepted. *)
Theorem validate_decides_on_normalised_path (d : Upload.disk) (input : text) :
  let p := Upload.filter input in
  (d p = None -> Upload.is_rejected (Upload.validate d input))
  /\ (forall size, d p = Some size -> Upload.MAX_FILE_SIZE < size ->
        Upload.is_rejected (Upload.validate d input))
  /\ (forall size, d p = Some size -> size <= Upload.MAX_FILE_SIZE -> p <> [] ->
        Upload.validate d input = Upload.Accepted)
  /\ (p = [] -> Upload.is_rejected (Upload.validate d input))
  /\ Upload.MAX_FILE_SIZE = 5242880.
Proof.
  intros p. subst p. unfold Upload.validate, Upload.filter, Upload.existsSync,
    Upload.statSync_size.
  set (p := stripQuotes (trim input)).
  repeat split.
  - intros Hnone. rewrite Hnone. destruct (nonEmpty p); exact I.
  - intros size Hsome Hbig. rewrite Hsome.
    destruct (nonEmpty p); simpl; [|exact I].
    apply N.ltb_lt in Hbig. rewrite Hbig. exact I.
  - intros size Hsome Hsmall Hp. rewrite Hsome.
    destruct p as [|c p']; [congruence|]. simpl.
    apply N.ltb_ge in Hsmall. rewrite Hsmall. reflexivity.
  - intros Hp. rewrite Hp. exact I.
Qed.

(** C2 at work: an unknown path, a file of 5 MiB and one byte, and a file of
    exactly 5 MiB given with blanks and quotes around its path. *)
Lemma validate_decides_on_normalised_path_witness :
  Upload.is_rejected (Upload.validate (one_file (js "a.txt") 7) (js "b.txt"))
  /\ Upload.is_rejected
       (Upload.validate (one_file (js "a.txt") 5242881) (js " 'a.txt' "))
  /\ Upload.validate (one_file (js "a.txt") 5242880) (js " 'a.txt' ")
     = Upload.Accepted.
Proof.
  pose proof (validate_decides_on_normalised_path
                (one_file (js "a.txt") 7) (js "b.txt")) as (H1 & _).
  pose proof (validate_decides_on_normalised_path
                (one_file (js "a.txt") 5242881) (js " 'a.txt' ")) as (_ & H2 & _).
  pose proof (validate_decides_on_normalised_path
                (one_file (js "a.txt") 5242880) (js " 'a.txt' ")) as (_ & _ & H3 & _).
  split; [apply H1; vm_compute; reflexivity|].
  split; [apply (H2 5242881); vm_compute; reflexivity|].
  apply (H3 5242880); vm_compute; [reflexivity|discriminate|discriminate].
Defined.

(** ** Facts about matching *)

Section Matching.
Import Regex Dotenv.

Lemma mstate_eta s : MState (before s) (rest s) (caps s) = s.
Proof. destruct s; reflexivity. Qed.

Lemma head_flat_map {A B} (f : A -> list B) l x y :
  head l = Some x -> head (f x) = Some y -> head (flat_map f l) = Some y.
Proof.
  destruct l as [|x' l]; simpl; [discriminate|].
  intros [= ->] Hy. destruct (f x); simpl in *; [discriminate|exact Hy].
Qed.

Lemma first_seq a b s s1 s2 :
  head (m a s) = Some s1 -> head (m b s1) = Some s2 ->
  head (m (Seq a b) s) = Some s2.
Proof. intros. simpl. eapply head_flat_map; eauto. Qed.

Lemma first_alt_l a b s s1 :
  head (m a s) = Some s1 -> head (m (Alt a b) s) = Some s1.
Proof. simpl. destruct (m a s); simpl; [discriminate|auto]. Qed.

Lemma first_alt_r a b s :
  m a s = [] -> head (m (Alt a b) s) = head (m b s).
Proof. simpl. intros ->. reflexivity. Qed.

Lemma m_seq_nil a b s : m a s = [] -> m (Seq a b) s = [].
Proof. simpl. intros ->. reflexivity. Qed.

Lemma m_chr_no cls s :
  match rest s with c :: _ => cls c = false | [] => True end ->
  m (Chr cls) s = [].
Proof. simpl. destruct (rest s); [reflexivity|]. intros ->. reflexivity. Qed.

Lemma first_star_lazy a s : head (m (Star false a) s) = Some s.
Proof. simpl. destruct (length (rest s)); reflexivity. Qed.

(** A repetition of a class stops at once before a code unit that is not
    of the class, and at the end. *)
Lemma star_class_stop g cls s :
  match rest s with c :: _ => cls c = false | [] => True end ->
  m (Star g (Chr cls)) s = [s].
Proof.
  intros H. simpl. destruct (rest s) as [|c t] eqn:E; simpl; [reflexivity|].
  rewrite E, H. simpl. destruct g; reflexivity.
Qed.

Lemma iter_class cls T : forall n s r,
  rest s = T ++ r -> forallb cls T = true ->
  match r with c :: _ => cls c = false | [] => True end ->
  (length (rest s) <= n)%nat ->
  head (iter (m (Chr cls)) true n s) = Some (after T r s).
Proof.
  induction T as [|c T IH]; intros n s r Hrest Hall Hstop Hn; simpl in *.
  - unfold after. simpl. rewrite <- Hrest, mstate_eta.
    destruct n; simpl; [reflexivity|].
    rewrite Hrest. destruct r; simpl; [reflexivity|]. rewrite Hstop. reflexivity.
  - apply andb_true_iff in Hall as [Hc Hall].
    destruct n as [|n]; [rewrite Hrest in Hn; simpl in Hn; lia|].
    simpl. rewrite Hrest, Hc. simpl.
    rewrite (proj2 (Nat.ltb_lt _ _)) by lia.
    rewrite app_nil_r.
    assert (Hh : head (iter (m (Chr cls)) true n (MState (Some c) (T ++ r) (caps s)))
                 = Some (after T r (MState (Some c) (T ++ r) (caps s)))).
    { apply IH; simpl; auto. rewrite Hrest in Hn. simpl in Hn. lia. }
    destruct (iter _ _ _ _) as [|x l]; simpl in *; [discriminate|].
    rewrite Hh. unfold after. simpl. f_equal. f_equal.
    destruct T as [|c' T']; [reflexivity|]. simpl.
    destruct (last (c' :: T')) eqn:E; [reflexivity|].
    apply last_None in E. discriminate.
Qed.

Lemma first_star_class cls T s r :
  rest s = T ++ r -> forallb cls T = true ->
  match r with c :: _ => cls c = false | [] => True end ->
  head (m (Star true (Chr cls)) s) = Some (after T r s).
Proof. intros. simpl. eapply iter_class; eauto. Qed.

Lemma first_plus_class cls T s r :
  T <> [] -> rest s = T ++ r -> forallb cls T = true ->
  match r with c :: _ => cls c = false | [] => True end ->
  head (m (Plus true (Chr cls)) s) = Some (after T r s).
Proof.
  intros HT Hrest Hall Hstop. destruct T as [|c T]; [congruence|].
  simpl in Hall. apply andb_true_iff in Hall as [Hc Hall].
  unfold Plus. eapply first_seq.
  - simpl. rewrite Hrest. simpl. rewrite Hc. reflexivity.
  - erewrite first_star_class; simpl; eauto.
    unfold after. simpl. f_equal. f_equal.
    destruct T as [|c' T']; [reflexivity|].
    destruct (last (c' :: T')) eqn:E; [|apply last_None in E; discriminate].
    simpl in *. rewrite E. reflexivity.
Qed.

Lemma first_grp i a s s1 T :
  head (m a s) = Some s1 -> rest s = T ++ rest s1 ->
  head (m (Grp i a) s)
  = Some (MState (before s1) (rest s1) ((i, T) :: caps s1)).
Proof.
  intros Hh Hrest. simpl. destruct (m a s) as [|x l]; simpl in *; [discriminate|].
  injection Hh as ->. unfold consumed. rewrite Hrest.
  rewrite length_app, Nat.add_sub, take_app_length. reflexivity.
Qed.

End Matching.

(** ** The credential file through the parser *)

Section CredentialLine.
Import Regex Dotenv.

Lemma js_auth_token_eq :
  js "auth_token=" = [97; 117; 116; 104; 95; 116; 111; 107; 101; 110; 61].
Proof. reflexivity. Qed.

Lemma quoted_no q s c t :
  rest s = c :: t -> isWhiteSpace c = false -> (q =? c) = false ->
  m (quoted q) s = [].
Proof.
  intros Hrest Hws Hq. unfold quoted. cbn [cat foldr].
  change (m (Seq ?a ?b) s) with (flat_map (m b) (m a s)).
  unfold ws. rewrite star_class_stop by (rewrite Hrest; exact Hws).
  cbn [flat_map]. rewrite app_nil_r. apply m_seq_nil, m_chr_no.
  rewrite Hrest. exact Hq.
Qed.

Lemma line_end b cs :
  head (m (cat [Star true ws; Opt (Seq (Chr (only 35)) (Star true (Chr dot)));
                Alt Eol Eol]) (MState b [] cs))
  = Some (MState b [] cs).
Proof. reflexivity. Qed.

Lemma search_line_at_end b : search LINE b [] = None.
Proof.
  unfold search, match_here. destruct b as [c|]; simpl;
    [destruct (isLineTerminator c)|]; reflexivity.
Qed.

Lemma storable_parts T :
  storable T = true ->
  forallb (fun c => negb (c =? 35) && negb (isLineTerminator c)) T = true
  /\ (forall c t, T = c :: t ->
        isWhiteSpace c = false /\ (39 =? c) = false /\ (34 =? c) = false
        /\ (96 =? c) = false)
  /\ (forall c, last T = Some c -> isWhiteSpace c = false).
Proof.
  unfold storable. intros H. apply andb_true_iff in H as [H _].
  apply andb_true_iff in H as [H Hlast]. apply andb_true_iff in H as [Hall Hhead].
  split; [exact Hall|]. split.
  - intros c t ->. simpl in Hhead.
    apply andb_true_iff in Hhead as [Hws Hq].
    apply negb_true_iff in Hws, Hq.
    apply orb_false_iff in Hq as [Hq H96]. apply orb_false_iff in Hq as [H39 H34].
    rewrite !(N.eqb_sym _ c). auto.
  - intros c Hc. rewrite Hc in Hlast. apply negb_true_iff in Hlast. exact Hlast.
Qed.

Lemma storable_value_class T :
  storable T = true -> forallb (noneOf [35; 13; 10]) T = true.
Proof.
  intros H. apply storable_parts in H as (Hall & _).
  rewrite forallb_forall in *. intros c Hc. specialize (Hall c Hc).
  apply andb_true_iff in Hall as [H35 Hlt].
  apply negb_true_iff in H35, Hlt. unfold isLineTerminator in Hlt.
  apply orb_false_iff in Hlt as [Hlt _]. apply orb_false_iff in Hlt as [Hlt _].
  apply orb_false_iff in Hlt as [H10 H13].
  unfold noneOf. simpl. rewrite H35, H13, H10. reflexivity.
Qed.

(** The first match of LINE on the credential file of a storable token
      spans the whole file. *)
Lemma line_on_credential T :
  T <> [] -> storable T = true ->
  exists b, match_here LINE None (js "auth_token=" ++ T)
            = Some (MState b [] [(2%nat, T); (1%nat, js "auth_token")]).
Proof.
  intros HT Hst. pose proof (storable_value_class T Hst) as Hcls.
  apply storable_parts in Hst as (_ & Hhead & _).
  destruct T as [|c t] eqn:ET; [congruence|]. rewrite <- ET in *.
  destruct (Hhead c t ET) as (Hws & H39 & H34 & H96).
  eexists. unfold match_here, LINE. cbn [cat foldr]. rewrite js_auth_token_eq.
  eapply first_seq; [apply first_alt_l; reflexivity|].
  eapply first_seq; [unfold ws; rewrite star_class_stop by reflexivity; reflexivity|].
  eapply first_seq; [unfold Opt; rewrite first_alt_r by reflexivity; reflexivity|].
  eapply first_seq.
  { eapply (first_grp 1 _ _ _ (js "auth_token")).
    - eapply (first_plus_class isKeyChar (js "auth_token") _ (61 :: T));
        [discriminate|reflexivity|reflexivity|reflexivity].
    - reflexivity. }
  eapply first_seq.
  { apply first_alt_l. cbn [cat foldr].
    eapply first_seq; [unfold ws; rewrite star_class_stop by reflexivity; reflexivity|].
    eapply first_seq; [reflexivity|].
    eapply first_seq; [apply first_star_lazy|reflexivity]. }
  eapply first_seq.
  { unfold Opt. apply first_alt_l. eapply (first_grp 2 _ _ _ T).
    - unfold VALUE.
      rewrite first_alt_r by (eapply quoted_no; [simpl; exact ET|exact Hws|exact H39]).
      rewrite first_alt_r by (eapply quoted_no; [simpl; exact ET|exact Hws|exact H34]).
      rewrite first_alt_r by (eapply quoted_no; [simpl; exact ET|exact Hws|exact H96]).
      eapply (first_plus_class _ T _ []); [exact HT|simpl; symmetry; apply app_nil_r|exact Hcls|exact I].
    - simpl. symmetry. apply app_nil_r. }
  cbn [after rest before caps]. apply line_end.
Qed.

End CredentialLine.

Section CredentialValue.
Import Regex Dotenv.

Lemma trimStart_id T :
  match T with c :: _ => isWhiteSpace c = false | [] => True end ->
  trimStart T = T.
Proof. destruct T as [|c t]; simpl; [reflexivity|]. intros ->. reflexivity. Qed.

Lemma trim_id T :
  match T with c :: _ => isWhiteSpace c = false | [] => True end ->
  (forall c, last T = Some c -> isWhiteSpace c = false) ->
  trim T = T.
Proof.
  intros Hhead Hlast. unfold trim, trimEnd. rewrite (trimStart_id T Hhead).
  rewrite trimStart_id; [apply rev_involutive|].
  destruct (rev T) as [|c t] eqn:E; [exact I|].
  apply Hlast. rewrite <- (rev_involutive T), E. simpl.
  apply last_snoc.
Qed.

(** No match of a pattern that starts with a class outside the subject. *)
Lemma search_class_absent cls r s : forall b,
  forallb (fun c => negb (cls c)) s = true ->
  search (Seq (Chr cls) r) b s = None.
Proof.
  induction s as [|c s IH]; intros b H; [reflexivity|].
  simpl in H. apply andb_true_iff in H as [Hc H]. apply negb_true_iff in Hc.
  cbn [search]. unfold match_here. cbn [m rest]. rewrite Hc. cbn [flat_map head].
  rewrite IH by exact H. reflexivity.
Qed.

Lemma replace_newline_id s :
  forallb (fun c => negb (only 13 c)) s = true ->
  replace_all NEWLINE (fun _ => [10]) s = s.
Proof.
  intros H. unfold replace_all, NEWLINE. cbn [replace_from].
  rewrite search_class_absent by exact H. reflexivity.
Qed.

(** The pattern of the surrounding quotes matches only at the start of a
      line, and there only before a quote. *)
Lemma search_surrounding_none s : forall b,
  forallb (fun c => negb (isLineTerminator c)) s = true ->
  match b with
  | None =>
      match s with
      | c :: _ => (c =? 39) || (c =? 34) || (c =? 96) = false
      | [] => True
      end
  | Some c => isLineTerminator c = false
  end ->
  search SURROUNDING b s = None.
Proof.
  induction s as [|c s IH]; intros b Hall Hb.
  - destruct b as [c|]; cbn [search]; unfold match_here; simpl;
      [rewrite Hb|]; reflexivity.
  - simpl in Hall. apply andb_true_iff in Hall as [Hc Hall].
    apply negb_true_iff in Hc.
    cbn [search]. rewrite (IH (Some c) Hall Hc).
    unfold match_here. destruct b as [c0|]; simpl.
    + rewrite Hb. reflexivity.
    + rewrite Hb. reflexivity.
Qed.

Lemma replace_surrounding_id T :
  forallb (fun c => negb (isLineTerminator c)) T = true ->
  match T with
  | c :: _ => (c =? 39) || (c =? 34) || (c =? 96) = false
  | [] => True
  end ->
  replace_all SURROUNDING (group 2) T = T.
Proof.
  intros Hall Hhead. unfold replace_all. cbn [replace_from].
  rewrite (search_surrounding_none T None Hall Hhead). reflexivity.
Qed.

Lemma value_of_storable T cs :
  storable T = true ->
  value_of ((2%nat, T) :: cs) = T.
Proof.
  intros Hst. apply storable_parts in Hst as (Hall & Hhead & Hlast).
  assert (Hlt : forallb (fun c => negb (isLineTerminator c)) T = true).
  { rewrite forallb_forall in *. intros c Hc. specialize (Hall c Hc).
    apply andb_true_iff in Hall as [_ H]. exact H. }
  unfold value_of, group. cbn [cap Nat.eqb default from_option id].
  rewrite trim_id.
  - rewrite replace_surrounding_id; [|exact Hlt|].
    + destruct (decide (head T = Some 34)) as [Hq|]; [|reflexivity].
      destruct T as [|c t]; [discriminate|]. injection Hq as ->.
      destruct (Hhead 34 t eq_refl) as (_ & _ & H34 & _). discriminate.
    + destruct T as [|c t]; [exact I|].
      destruct (Hhead c t eq_refl) as (_ & H39 & H34 & H96).
      rewrite !(N.eqb_sym c). rewrite H39, H34, H96. reflexivity.
  - destruct T as [|c t]; [exact I|]. apply (Hhead c t eq_refl).
  - exact Hlast.
Qed.

(** The parser gives a storable token back. *)
Lemma parse_credential T :
  storable T = true ->
  Dotenv.parse (js "auth_token=" ++ T) !! js "auth_token" = Some T.
Proof.
  intros Hst. destruct T as [|c t] eqn:ET; [vm_compute; reflexivity|].
  rewrite <- ET in *. assert (HT : T <> []) by (rewrite ET; discriminate).
  unfold Dotenv.parse. rewrite replace_newline_id.
  - destruct (line_on_credential T HT Hst) as [b Hm].
    cbn [parse_from]. unfold search at 1.
    destruct (js "auth_token=" ++ T) as [|x l] eqn:E; [discriminate|].
    fold search. rewrite Hm. cbn [rest before caps length parse_from].
    rewrite search_line_at_end. unfold group at 1. cbn [cap Nat.eqb default from_option id].
    rewrite value_of_storable by exact Hst.
    apply lookup_insert_eq.
  - apply storable_parts in Hst as (Hall & _).
    rewrite forallb_app. apply andb_true_iff. split; [reflexivity|].
    rewrite forallb_forall in *. intros x Hx. specialize (Hall x Hx).
    apply andb_true_iff in Hall as [_ H]. apply negb_true_iff in H.
    unfold isLineTerminator in H.
    apply orb_false_iff in H as [H _]. apply orb_false_iff in H as [H _].
    apply orb_false_iff in H as [_ H13].
    unfold only. rewrite N.eqb_sym, H13. reflexivity.
Qed.

End CredentialValue.

Lemma load_after_save T w :
  fst (load_credential (snd (save_credential T w)))
  = Returned (Dotenv.parse (js "auth_token=" ++ T) !! js "auth_token").
Proof.
  destruct w. unfold load_credential, save_credential, writeFileSync, readFileSync,
    bind, ret.
  cbn [snd fst disk set_disk add_trace]. rewrite lookup_insert_eq. reflexivity.
Qed.

(** C3, as stated, fails: a token that starts with a blank comes back
    without it. *)
Lemma credential_round_trip_loses_blank :
  fst (load_credential (snd (save_credential (js " abc") (ready ∅ [] []))))
  <> Returned (Some (js " abc")).
Proof. rewrite load_after_save. vm_compute. discriminate. Qed.

(** C3, amended. *)
Theorem credential_round_trip (T1 T2 : text) (w : world) :
  storable T2 = true ->
  let w1 := snd (save_credential T1 w) in
  let w2 := snd (save_credential T2 w1) in
  fst (load_credential (snd (save_credential T2 w))) = Returned (Some T2)
  /\ fst (load_credential w2) = Returned (Some T2)
  /\ snd (load_credential w2) = w2
  /\ disk w2 !! credential_file = Some (js "auth_token=" ++ T2).
Proof.
  intros Hst w1 w2. subst w1 w2. rewrite !load_after_save.
  rewrite (parse_credential T2 Hst). destruct w. repeat split.
  - unfold load_credential, save_credential, writeFileSync, readFileSync, bind, ret.
    cbn [snd fst disk set_disk add_trace]. rewrite lookup_insert_eq. reflexivity.
  - unfold save_credential, writeFileSync. cbn [snd disk set_disk add_trace].
    apply lookup_insert_eq.
Qed.

(** C3 at work: a token with a blank, an equals sign and an apostrophe
    inside comes back as it was saved. *)
Lemma credential_round_trip_witness :
  fst (load_credential (snd (save_credential (js "a b=c'd") (ready ∅ [] []))))
  = Returned (Some (js "a b=c'd")).
Proof.
  apply (credential_round_trip (js "old") (js "a b=c'd") (ready ∅ [] [])).
  vm_compute. reflexivity.
Defined.

(** ** The screens never throw *)

Section Quiet.

Lemma quiet_keeps {A} (c : M A) : quiet c -> keeps c.
Proof. intros H w Hw. apply (H w Hw). Qed.

Lemma keeps_ret {A} (a : A) : keeps (ret a).
Proof. intros w H. exact H. Qed.

Lemma keeps_throw {A} e : keeps (@throw A e).
Proof. intros w H. exact H. Qed.

Lemma keeps_pending {A} : keeps (@pending A).
Proof. intros w H. exact H. Qed.

Lemma keeps_exit {A} code : keeps (@process_exit A code).
Proof. intros w H. exact H. Qed.

Lemma keeps_emit e : keeps (emit e).
Proof. intros w H. destruct w. exact H. Qed.

Lemma keeps_styles x s : keeps (styles x s).
Proof. intros w H. unfold styles. rewrite H. exact H. Qed.

Lemma keeps_next_answer : keeps next_answer.
Proof. intros w H. destruct w as [? ? ? ? [|a i] ? ?]; exact H. Qed.

Lemma keeps_writeFileSync p c : keeps (writeFileSync p c).
Proof. intros w H. destruct w. exact H. Qed.

Lemma keeps_readFileSync p : keeps (readFileSync p).
Proof. intros w H. unfold readFileSync. destruct (disk w !! p); exact H. Qed.

Lemma keeps_the_download_dir : keeps the_download_dir.
Proof. intros w H. exact H. Qed.

Lemma keeps_bind {A B} (c : M A) (k : A -> M B) :
  keeps c -> (forall a, keeps (k a)) -> keeps (bind c k).
Proof.
  intros Hc Hk w H. unfold bind. specialize (Hc w H).
  destruct (c w) as [[a| | |] w']; simpl in *; auto. apply Hk, Hc.
Qed.

Lemma keeps_try_catch {A} (c : M A) h :
  keeps c -> (forall e, keeps (h e)) -> keeps (try_catch c h).
Proof.
  intros Hc Hh w H. unfold try_catch. specialize (Hc w H).
  destruct (c w) as [[a| | |] w']; simpl in *; auto. apply Hh, Hc.
Qed.

Lemma keeps_axios r : keeps (axios r).
Proof.
  apply keeps_bind; [apply keeps_emit|]. intros _ w H.
  destruct w as [? ? ? ? ? [|rep nw] ?]; [exact H|]. cbn [network].
  destruct (settle r rep); exact H.
Qed.

Lemma quiet_ret {A} (a : A) : quiet (ret a).
Proof. intros w H. split; [exact H|discriminate]. Qed.

Lemma quiet_pending {A} : quiet (@pending A).
Proof. intros w H. split; [exact H|discriminate]. Qed.

Lemma quiet_exit {A} code : quiet (@process_exit A code).
Proof. intros w H. split; [exact H|discriminate]. Qed.

Lemma quiet_emit e : quiet (emit e).
Proof. intros w H. destruct w. split; [exact H|discriminate]. Qed.

Lemma quiet_styles x s : quiet (styles x s).
Proof. intros w H. unfold styles. rewrite H. split; [exact H|discriminate]. Qed.

Lemma quiet_next_answer : quiet next_answer.
Proof.
  intros w H. destruct w as [? ? ? ? [|a i] ? ?]; (split; [exact H|discriminate]).
Qed.

Lemma quiet_bind {A B} (c : M A) (k : A -> M B) :
  quiet c -> (forall a, quiet (k a)) -> quiet (bind c k).
Proof.
  intros Hc Hk w H. unfold bind. destruct (Hc w H) as [Hs Hn].
  destruct (c w) as [[a| | |] w']; simpl in *;
    try (split; [exact Hs|discriminate]).
  - apply Hk, Hs.
  - exfalso. exact (Hn e eq_refl).
Qed.

Lemma quiet_try_catch {A} (c : M A) h :
  keeps c -> (forall e, quiet (h e)) -> quiet (try_catch c h).
Proof.
  intros Hc Hh w H. unfold try_catch. specialize (Hc w H).
  destruct (c w) as [[a| | |] w']; simpl in *;
    try (split; [exact Hc|discriminate]).
  apply Hh, Hc.
Qed.

Lemma try_catch_quiet {A} (c : M A) h w :
  quiet c -> styles_ready w = true -> try_catch c h w = c w.
Proof.
  intros Hc H. unfold try_catch. destruct (Hc w H) as [_ Hn].
  destruct (c w) as [[a| | |] w']; try reflexivity.
  exfalso. exact (Hn e eq_refl).
Qed.

End Quiet.

Ltac keeps_step :=
  first
    [ apply keeps_axios
    | apply keeps_ret | apply keeps_throw | apply keeps_pending
    | apply keeps_exit | apply keeps_emit | apply keeps_styles
    | apply keeps_next_answer | apply keeps_writeFileSync
    | apply keeps_readFileSync | apply keeps_the_download_dir
    | apply quiet_keeps; solve [auto]
    | apply keeps_bind; [|intros ?]
    | apply keeps_try_catch; [|intros ?]
    | match goal with
      | |- keeps (match ?x with _ => _ end) => destruct x
      end ].

Ltac keeps_all :=
  unfold say, showHeader, pause_then, prompt, ask_credentials,
    save_credential, load_credential, clear, sleep, console_log, console_error;
  repeat keeps_step.

Ltac quiet_step :=
  first
    [ apply quiet_ret | apply quiet_pending | apply quiet_exit
    | apply quiet_emit | apply quiet_styles | apply quiet_next_answer
    | solve [auto]
    | apply quiet_bind; [|intros ?]
    | apply quiet_try_catch; [keeps_all|intros ?]
    | match goal with
      | |- quiet (match ?x with _ => _ end) => destruct x
      end ].

Ltac quiet_all :=
  unfold say, showHeader, pause_then, prompt, ask_credentials, clear, sleep,
    console_log, console_error;
  repeat quiet_step.

Section QuietScreens.

Lemma quiet_forEach {A} (f : A -> nat -> M unit) l :
  (forall x i, quiet (f x i)) -> forall i, quiet (forEach f i l).
Proof.
  intros Hf. induction l as [|x l IH]; intros i; simpl.
  - apply quiet_ret.
  - apply quiet_bind; [apply Hf|]. intros _. apply IH.
Qed.

Lemma quiet_screens n :
  quiet (showMainMenu n) /\ quiet (accessEndpoint n) /\ quiet (createEndpoint n)
  /\ (forall name fl pw, quiet (showFileManager n name fl pw))
  /\ (forall name pw, quiet (uploadFile n name pw))
  /\ (forall name fl pw, quiet (downloadFile n name fl pw)).
Proof.
  induction n as [|n (Hmain & Haccess & Hcreate & Hfm & Hup & Hdown)].
  - split; [|split; [|split; [|split; [|split]]]];
      [| | |intros name fl pw|intros name pw|intros name fl pw];
      exact quiet_pending.
  - split; [|split; [|split; [|split; [|split]]]];
      [| | |intros name fl pw|intros name pw|intros name fl pw].
    + change (quiet (showMainMenu_body (accessEndpoint n) (createEndpoint n))).
      unfold showMainMenu_body. quiet_all.
    + change (quiet (accessEndpoint_body (showMainMenu n) (showFileManager n))).
      unfold accessEndpoint_body. quiet_all.
    + change (quiet (createEndpoint_body (showMainMenu n))).
      unfold createEndpoint_body. quiet_all.
    + change (quiet (showFileManager_body (showMainMenu n) (showFileManager n)
                       (uploadFile n) (downloadFile n) name fl pw)).
      unfold showFileManager_body. quiet_all.
      apply quiet_forEach. intros. quiet_all.
    + change (quiet (uploadFile_body (showFileManager n) name pw)).
      unfold uploadFile_body. quiet_all.
    + change (quiet (downloadFile_body (showFileManager n) name fl pw)).
      unfold downloadFile_body. quiet_all.
Qed.

End QuietScreens.

(** ** One step of each screen *)

Ltac run_cli :=
  cbn -[settle js app decimal Path.join Dotenv.parse access_failure create_failure
        API_URL DOWNLOAD_DIR credential_file lookup insert N.eqb truthy orElse
        get_site post_createsite post_upload get_file response_error default
        fs_error e_message
        Nat.ltb length].

Ltac unfold_cli :=
  unfold showHeader, say, pause_then, ask_credentials, prompt, axios,
    save_credential, load_credential, clear, sleep, console_log, console_error;
  unfold bind, try_catch, emit, styles, next_answer, ret, pending, throw,
    writeFileSync, readFileSync, the_download_dir;
  run_cli.

Ltac open_world w :=
  let h := fresh "h" in let d := fresh "d" in let k := fresh "k" in
  let s := fresh "s" in let i := fresh "i" in let nw := fresh "nw" in
  let t := fresh "t" in
  destruct w as [h d k s i nw t];
  cbn [styles_ready stdin network disk homedir download_dir trace] in *;
  subst s.

Ltac same_world :=
  unfold advance, consume, with_file, header, DOWNLOAD_DIR;
  cbn [add_trace set_network set_stdin set_disk homedir download_dir disk
       styles_ready stdin network trace skipn];
  rewrite ?drop_0, <- ?app_assoc; cbn [app].

Ltac settled K HK :=
  match goal with
  | |- context [K ?W] =>
      let Hn := fresh "Hn" in
      pose proof (proj2 (HK W eq_refl)) as Hn;
      destruct (K W) as [[?|?|?|] ?]; cbn [fst] in Hn;
      [reflexivity|exfalso; eapply Hn; reflexivity|reflexivity|reflexivity]
  end.



Section Steps.

Variable Kmain : M unit.
Variable Kfm : text -> list file_record -> text -> M unit.
Hypothesis quiet_main : quiet Kmain.
Hypothesis quiet_fm : forall name fl pw, quiet (Kfm name fl pw).

Lemma access_step_failure w name pw rep rest_in rest_net e :
  styles_ready w = true ->
  stdin w = Credentials name pw :: rest_in ->
  network w = rep :: rest_net ->
  settle (get_site name pw) rep = inr e ->
  accessEndpoint_body Kmain Kfm w
  = Kmain (advance 1 1
             (access_events name pw
              ++ [Log (Some failure, access_failure e); Sleep 2000]) w).
Proof.
  intros Hs Hin Hnet Hset. open_world w. subst.
  unfold accessEndpoint_body, access_events. unfold_cli. rewrite Hset. run_cli.
  same_world. settled Kmain quiet_main.
Qed.

Lemma access_step_token w name pw rep rest_in rest_net res :
  styles_ready w = true ->
  stdin w = Credentials name pw :: rest_in ->
  network w = rep :: rest_net ->
  settle (get_site name pw) rep = inl res ->
  truthy (auth_token (response_data res)) = true ->
  accessEndpoint_body Kmain Kfm w
  = Kfm name (default [] (files (response_data res))) pw
      (add_trace
         (access_events name pw
          ++ [WriteFile credential_file
                (js "auth_token=" ++ default [] (auth_token (response_data res)))])
         (with_file credential_file
            (js "auth_token=" ++ default [] (auth_token (response_data res)))
            (consume 1 1 w))).
Proof.
  intros Hs Hin Hnet Hset Htok. open_world w. subst.
  unfold accessEndpoint_body, access_events. unfold_cli. rewrite Hset. run_cli.
  rewrite Htok. run_cli.
  same_world. settled (Kfm name (default [] (files (response_data res))) pw)
    (quiet_fm name (default [] (files (response_data res))) pw).
Qed.

Lemma access_step_no_token w name pw rep rest_in rest_net res :
  styles_ready w = true ->
  stdin w = Credentials name pw :: rest_in ->
  network w = rep :: rest_net ->
  settle (get_site name pw) rep = inl res ->
  truthy (auth_token (response_data res)) = false ->
  accessEndpoint_body Kmain Kfm w
  = (Returned tt, advance 1 1 (access_events name pw) w).
Proof.
  intros Hs Hin Hnet Hset Htok. open_world w. subst.
  unfold accessEndpoint_body, access_events. unfold_cli. rewrite Hset. run_cli.
  rewrite Htok. run_cli. same_world. reflexivity.
Qed.

Lemma create_step_failure w name pw rep rest_in rest_net e :
  styles_ready w = true ->
  stdin w = Credentials name pw :: rest_in ->
  network w = rep :: rest_net ->
  settle (post_createsite name pw) rep = inr e ->
  createEndpoint_body Kmain w
  = Kmain (advance 1 1
             (create_events name pw
              ++ [Log (Some failure, create_failure e); Sleep 2000]) w).
Proof.
  intros Hs Hin Hnet Hset. open_world w. subst.
  unfold createEndpoint_body, create_events. unfold_cli. rewrite Hset. run_cli.
  same_world. settled Kmain quiet_main.
Qed.


Lemma create_step_no_token w name pw rep rest_in rest_net res :
  styles_ready w = true ->
  stdin w = Credentials name pw :: rest_in ->
  network w = rep :: rest_net ->
  settle (post_createsite name pw) rep = inl res ->
  truthy (auth_token (response_data res)) = false ->
  createEndpoint_body Kmain w
  = Kmain (advance 1 1 (create_events name pw) w).
Proof.
  intros Hs Hin Hnet Hset Htok. open_world w. subst.
  unfold createEndpoint_body, create_events. unfold_cli. rewrite Hset. run_cli.
  rewrite Htok. run_cli.
  same_world. settled Kmain quiet_main.
Qed.


Lemma upload_step_done w name pw path rest_in content rep1 rep2 rest_net res1 res2 :
  styles_ready w = true ->
  stdin w = FilePath path :: rest_in ->
  disk w !! credential_file = Some content ->
  network w = rep1 :: rep2 :: rest_net ->
  settle (post_upload name path (Dotenv.parse content !! js "auth_token")) rep1
    = inl res1 ->
  settle (get_site name pw) rep2 = inl res2 ->
  uploadFile_body Kfm name pw w
  = Kfm name (default [] (files (response_data res2))) pw
      (advance 1 2
         [upload_prompt;
          Log (Some info, nl ++ outbox ++ js " Uploading file...");
          Http (post_upload name path (Dotenv.parse content !! js "auth_token"));
          Log (Some success, nl ++ sparkles ++ js " File uploaded successfully!");
          Http (get_site name pw)] w).
Proof.
  intros Hs Hin Hfile Hnet Hset1 Hset2. open_world w. subst.
  unfold uploadFile_body, upload_prompt. unfold_cli. rewrite Hfile. run_cli.
  rewrite Hset1. run_cli. rewrite Hset2. run_cli.
  same_world. settled (Kfm name (default [] (files (response_data res2))) pw)
    (quiet_fm name (default [] (files (response_data res2))) pw).
Qed.


Lemma download_step_done w name fl pw i f rest_in content rep rest_net res :
  styles_ready w = true ->
  stdin w = FileIndex i :: rest_in ->
  fl !! i = Some f ->
  disk w !! credential_file = Some content ->
  network w = rep :: rest_net ->
  settle (get_file (file_id f) (Dotenv.parse content !! js "auth_token")) rep
    = inl res ->
  downloadFile_body Kfm name fl pw w
  = Kfm name fl pw
      (add_trace
         [download_prompt;
          Log (Some info, nl ++ js "Downloading file...");
          Http (get_file (file_id f) (Dotenv.parse content !! js "auth_token"));
          WriteFile (Path.join [DOWNLOAD_DIR w; file_name f])
                    (bytes (response_data res));
          Log (Some success,
               nl ++ sparkles ++ js " File downloaded to: "
                  ++ Path.join [DOWNLOAD_DIR w; file_name f])]
         (with_file (Path.join [DOWNLOAD_DIR w; file_name f])
                    (bytes (response_data res)) (consume 1 1 w))).
Proof.
  intros Hs Hin Hf Hfile Hnet Hset. open_world w. subst.
  unfold downloadFile_body, download_prompt. unfold_cli.
  rewrite (proj2 (Nat.ltb_lt _ _) (lookup_lt_Some _ _ _ Hf)). run_cli.
  rewrite Hf. run_cli. rewrite Hfile. run_cli. rewrite Hset. run_cli.
  same_world. settled (Kfm name fl pw) (quiet_fm name fl pw).
Qed.

End Steps.

(** ** [path.join] on plain names *)

Section PathFacts.
Import Path.

Lemma split_not_nil s : split s <> [].
Proof.
  induction s as [|c s IH]; simpl; [discriminate|].
  destruct (c =? 47); [discriminate|]. destruct (split s); discriminate.
Qed.

Lemma split_app_sep a b : split (a ++ 47 :: b) = split a ++ split b.
Proof.
  induction a as [|c a IH]; simpl; [reflexivity|].
  destruct (c =? 47); [rewrite IH; reflexivity|].
  rewrite IH. pose proof (split_not_nil a).
  destruct (split a); [congruence|reflexivity].
Qed.

Lemma split_no_separator seg : noSeparator seg = true -> split seg = [seg].
Proof.
  induction seg as [|c seg IH]; simpl; [reflexivity|].
  intros H. apply andb_true_iff in H as [Hc H]. apply negb_true_iff in Hc.
  rewrite Hc, (IH H). reflexivity.
Qed.

Lemma split_segments s : Forall (fun seg => noSeparator seg = true) (split s).
Proof.
  induction s as [|c s IH]; simpl; [repeat constructor|].
  destruct (c =? 47) eqn:E; [constructor; [reflexivity|exact IH]|].
  destruct (split s) as [|seg segs]; [repeat constructor; simpl; rewrite E; reflexivity|].
  inversion IH; subst. constructor; [simpl; rewrite E; assumption|assumption].
Qed.

Lemma split_unsplit l :
  l <> [] -> Forall (fun seg => noSeparator seg = true) l -> split (unsplit l) = l.
Proof.
  induction l as [|seg l IH]; [congruence|]. intros _ H. inversion H; subst.
  destruct l as [|seg2 l]; [apply split_no_separator; assumption|].
  change (unsplit (seg :: seg2 :: l)) with (seg ++ 47 :: unsplit (seg2 :: l)).
  rewrite split_app_sep, split_no_separator by assumption.
  rewrite IH by (try discriminate; assumption). reflexivity.
Qed.

Lemma unsplit_snoc l seg : l <> [] -> unsplit (l ++ [seg]) = unsplit l ++ 47 :: seg.
Proof.
  induction l as [|x l IH]; [congruence|]. intros _.
  destruct l as [|y l]; [reflexivity|].
  change (unsplit ((x :: y :: l) ++ [seg])) with (x ++ 47 :: unsplit ((y :: l) ++ [seg])).
  rewrite IH by discriminate.
  change (unsplit (x :: y :: l)) with (x ++ 47 :: unsplit (y :: l)).
  rewrite <- app_assoc. reflexivity.
Qed.

Lemma plainName_parts seg :
  plainName seg = true ->
  seg <> [] /\ noSeparator seg = true /\ seg <> js "." /\ seg <> js "..".
Proof.
  unfold plainName. intros H.
  apply andb_true_iff in H as [H H2]. apply andb_true_iff in H as [H H1].
  apply andb_true_iff in H as [H0 Hs].
  apply negb_true_iff, bool_decide_eq_false in H1, H2.
  repeat split; try assumption. intros ->. discriminate.
Qed.

Lemma segment_plainName allow st seg :
  plainName seg = true -> segment allow st seg = seg :: st.
Proof.
  intros H. apply plainName_parts in H as (H0 & _ & H1 & H2). unfold segment.
  rewrite !bool_decide_eq_false_2 by assumption. reflexivity.
Qed.

Lemma kept_tail allow seg st : kept allow (seg :: st) -> kept allow st.
Proof. inversion 1; assumption. Qed.

Lemma kept_segment allow st seg :
  kept allow st -> noSeparator seg = true -> kept allow (segment allow st seg).
Proof.
  intros Hst Hseg. unfold segment.
  destruct (bool_decide (seg = [])) eqn:E0; [exact Hst|].
  destruct (bool_decide (seg = js ".")) eqn:E1; [exact Hst|]. cbn [orb].
  destruct (bool_decide (seg = js "..")) eqn:E2.
  - apply bool_decide_eq_true in E2. subst seg.
    destruct st as [|top st].
    + destruct allow eqn:Ea; [|constructor].
      apply kept_parent; [reflexivity|constructor|exact I].
    + destruct (bool_decide (top = js "..")) eqn:Et.
      * destruct allow eqn:Ea; [|exact Hst].
        apply bool_decide_eq_true in Et.
        apply kept_parent; [reflexivity|exact Hst|exact Et].
      * eapply kept_tail. exact Hst.
  - apply kept_name; [|exact Hst]. unfold plainName.
    rewrite E1, E2, Hseg. apply bool_decide_eq_false in E0.
    destruct seg; [congruence|reflexivity].
Qed.

Lemma kept_foldl allow l : forall st,
  kept allow st -> Forall (fun seg => noSeparator seg = true) l ->
  kept allow (foldl (segment allow) st l).
Proof.
  induction l as [|seg l IH]; intros st Hst Hl; [exact Hst|].
  inversion Hl; subst. simpl. apply IH; [apply kept_segment|]; assumption.
Qed.

Lemma kept_no_separator allow st :
  kept allow st -> Forall (fun seg => noSeparator seg = true) st.
Proof.
  induction 1; constructor; try assumption; [reflexivity|].
  apply plainName_parts in H. tauto.
Qed.

Lemma kept_not_empty allow st :
  kept allow st -> Forall (fun seg => seg <> []) st.
Proof.
  induction 1; constructor; try assumption; [discriminate|].
  apply plainName_parts in H. tauto.
Qed.

(** What is kept stays as it is when it is normalised again. *)
Lemma kept_stable allow st :
  kept allow st -> foldl (segment allow) [] (rev st) = st.
Proof.
  induction 1 as [|st Ha Hst IH Htop|seg st Hseg Hst IH]; [reflexivity| |].
  - simpl. rewrite foldl_app, IH. simpl. subst allow. unfold segment.
    rewrite bool_decide_eq_false_2 by discriminate.
    rewrite bool_decide_eq_false_2 by discriminate. cbn [orb].
    rewrite bool_decide_eq_true_2 by reflexivity.
    destruct st as [|top st]; [reflexivity|]. subst top.
    rewrite bool_decide_eq_true_2 by reflexivity. reflexivity.
  - simpl. rewrite foldl_app, IH. simpl. apply segment_plainName. exact Hseg.
Qed.

Lemma elem_of_rev {A} (x : A) l : x ∈ rev l <-> x ∈ l.
Proof. rewrite !list_elem_of_In. symmetry. apply in_rev. Qed.

Lemma rev_not_nil {A} (l : list A) : l <> [] -> rev l <> [].
Proof.
  intros H E. apply (f_equal (@rev A)) in E. rewrite rev_involutive in E.
  contradiction.
Qed.

Lemma nonEmpty_true (s : text) : s <> [] -> nonEmpty s = true.
Proof. destruct s; [congruence|reflexivity]. Qed.

Lemma unsplit_head l seg c :
  l = seg :: tl l -> head seg = Some c -> head (unsplit l) = Some c.
Proof.
  destruct l as [|x l]; [discriminate|]. simpl. intros [= <-] H.
  destruct l; [exact H|]. destruct x; [discriminate|exact H].
Qed.

Lemma foldl_segment_empty allow st l :
  foldl (segment allow) st ([] :: l) = foldl (segment allow) st l.
Proof. reflexivity. Qed.

Lemma head_no_separator seg :
  seg <> [] -> noSeparator seg = true -> exists c, head seg = Some c /\ c <> 47.
Proof.
  destruct seg as [|c seg]; [congruence|]. intros _ H. simpl in H.
  apply andb_true_iff in H as [H _]. apply negb_true_iff, N.eqb_neq in H.
  exists c. split; [reflexivity|exact H].
Qed.

Lemma last_no_separator seg :
  seg <> [] -> noSeparator seg = true -> last seg <> Some 47.
Proof.
  intros Hne H Hl. apply last_Some in Hl as [l' ->].
  unfold noSeparator in H. rewrite forallb_app in H.
  apply andb_true_iff in H as [_ H]. simpl in H. discriminate.
Qed.

(** The normal form of a path whose last segment is kept: the kept
    segments, after the root when the path is absolute. *)
Lemma normalize_kept p :
  p <> [] -> last p <> Some 47 ->
  foldl (segment (negb (bool_decide (head p = Some 47)))) [] (split p) <> [] ->
  normalize p
  = (if bool_decide (head p = Some 47) then [47] else [])
    ++ unsplit (rev (foldl (segment (negb (bool_decide (head p = Some 47)))) []
                           (split p))).
Proof.
  intros Hp Hlast Hst. unfold normalize, normalizeString.
  destruct p as [|c p']; [congruence|]. cbn [nonEmpty negb].
  set (p := c :: p') in *. set (abs := bool_decide (head p = Some 47)) in *.
  set (st := foldl (segment (negb abs)) [] (split p)) in *.
  rewrite (bool_decide_eq_false_2 _ Hlast).
  assert (Hkept : kept (negb abs) st).
  { apply kept_foldl; [constructor|apply split_segments]. }
  assert (Hne : nonEmpty (unsplit (rev st)) = true).
  { pose proof (rev_not_nil st Hst) as Hrev.
    destruct (rev st) as [|seg l] eqn:E; [congruence|].
    assert (Hseg : seg <> []).
    { pose proof (kept_not_empty _ _ Hkept) as Hall.
      rewrite Forall_forall in Hall. apply Hall.
      apply elem_of_rev. rewrite E. left. }
    destruct seg as [|x seg]; [congruence|]. destruct l; reflexivity. }
  rewrite Hne. cbn [negb]. destruct abs; reflexivity.
Qed.

Lemma join_plain_name p name :
  p <> [] -> last p <> Some 47 ->
  foldl (segment (negb (bool_decide (head p = Some 47)))) [] (split p) <> [] ->
  plainName name = true ->
  join [normalize p; name] = normalize p ++ 47 :: name.
Proof.
  intros Hp Hlast Hst Hname.
  pose proof (normalize_kept p Hp Hlast Hst) as HD.
  set (abs := bool_decide (head p = Some 47)) in *.
  set (st := foldl (segment (negb abs)) [] (split p)) in *.
  assert (Hkept : kept (negb abs) st).
  { apply kept_foldl; [constructor|apply split_segments]. }
  destruct (plainName_parts name Hname) as (Hn0 & Hnsep & _ & _).
  pose proof (rev_not_nil st Hst) as Hrev.
  assert (Hsegs : Forall (fun seg => noSeparator seg = true) (rev st)).
  { apply Forall_forall. intros seg Hin.
    pose proof (kept_no_separator _ _ Hkept) as Hall. rewrite Forall_forall in Hall.
    apply Hall, elem_of_rev, Hin. }
  assert (Hfirst : exists seg l c, rev st = seg :: l /\ head seg = Some c /\ c <> 47).
  { destruct (rev st) as [|seg l] eqn:E; [congruence|]. inversion Hsegs; subst.
    assert (seg <> []).
    { pose proof (kept_not_empty _ _ Hkept) as Hall. rewrite Forall_forall in Hall.
      apply Hall. apply elem_of_rev. rewrite E. left. }
    destruct (head_no_separator seg) as (c & Hc & Hc47); try assumption.
    eauto 10. }
  destruct Hfirst as (seg & l & c & Erev & Hc & Hc47).
  assert (HB : head (unsplit (rev st)) = Some c).
  { eapply unsplit_head; [rewrite Erev; reflexivity|exact Hc]. }
  set (B := unsplit (rev st)) in *.
  set (D := normalize p) in *.
  assert (HDne : D <> []).
  { rewrite HD. destruct abs; [discriminate|]. simpl.
    destruct B; [discriminate|discriminate]. }
  unfold join. cbn [List.filter].
  rewrite (nonEmpty_true D HDne), (nonEmpty_true name Hn0). cbn [unsplit].
  unfold normalize at 1.
  assert (Hq : nonEmpty (D ++ 47 :: name) = true).
  { apply nonEmpty_true. destruct D; discriminate. }
  rewrite Hq. cbn [negb].
  assert (Habs : bool_decide (head (D ++ 47 :: name) = Some 47) = abs).
  { rewrite HD. destruct abs; [reflexivity|]. cbn [app].
    apply bool_decide_eq_false_2.
    destruct B as [|b B']; [discriminate|]. simpl in HB. injection HB as ->.
    simpl. intros [= ->]. congruence. }
  assert (Htrail : bool_decide (last (D ++ 47 :: name) = Some 47) = false).
  { apply bool_decide_eq_false_2.
    change (D ++ 47 :: name) with (D ++ [47] ++ name).
    rewrite app_assoc, last_app.
    destruct (last name) eqn:El; [|apply last_None in El; congruence].
    rewrite <- El. apply last_no_separator; assumption. }
  rewrite Habs, Htrail. unfold normalizeString.
  rewrite split_app_sep, (split_no_separator name Hnsep), foldl_app.
  assert (HsplitD : foldl (segment (negb abs)) [] (split D) = st).
  { rewrite HD. destruct abs; cbn [app].
    - change (split (47 :: B)) with ([] :: split B).
      rewrite foldl_segment_empty. unfold B.
      rewrite split_unsplit by assumption. apply kept_stable. exact Hkept.
    - unfold B. rewrite split_unsplit by assumption. apply kept_stable. exact Hkept. }
  rewrite HsplitD. cbn [foldl]. rewrite (segment_plainName _ _ _ Hname).
  cbn [rev]. rewrite unsplit_snoc by assumption. fold B.
  assert (Hne : nonEmpty (B ++ 47 :: name) = true).
  { destruct B; reflexivity. }
  rewrite Hne. cbn [negb]. rewrite HD.
  destruct abs; cbn [app]; reflexivity.
Qed.

(** A plain file name stays in the download directory. *)
Lemma download_path_of_plain_name w name :
  plainName name = true ->
  join [DOWNLOAD_DIR w; name] = DOWNLOAD_DIR w ++ 47 :: name.
Proof.
  intros Hname. unfold DOWNLOAD_DIR.
  assert (Hjoin : exists p,
            join [homedir w; js "Downloads"; js "cfileshare"] = normalize p
            /\ p <> [] /\ last p <> Some 47
            /\ foldl (segment (negb (bool_decide (head p = Some 47)))) [] (split p)
               <> []).
  { unfold join. cbn [List.filter].
    destruct (nonEmpty (homedir w)) eqn:Eh.
    - exists (homedir w ++ 47 :: js "Downloads" ++ 47 :: js "cfileshare").
      split; [reflexivity|]. split; [destruct (homedir w); discriminate|]. split.
      + change (homedir w ++ 47 :: js "Downloads" ++ 47 :: js "cfileshare")
          with (homedir w ++ (47 :: js "Downloads" ++ 47 :: js "cfileshar") ++ [101]).
        rewrite app_assoc, last_snoc. discriminate.
      + rewrite split_app_sep, foldl_app.
        change (split (js "Downloads" ++ 47 :: js "cfileshare"))
          with [js "Downloads"; js "cfileshare"].
        cbn [foldl].
        rewrite (segment_plainName _ _ (js "Downloads")) by reflexivity.
        rewrite (segment_plainName _ _ (js "cfileshare")) by reflexivity.
        discriminate.
    - exists (js "Downloads" ++ 47 :: js "cfileshare").
      split; [reflexivity|]. repeat split; vm_compute; discriminate. }
  destruct Hjoin as (p & -> & Hp & Hlast & Hst).
  apply join_plain_name; assumption.
Qed.

End PathFacts.

(** ** The screens *)

Lemma quiet_showMainMenu n : quiet (showMainMenu n).
Proof. apply (quiet_screens n). Qed.

Lemma quiet_showFileManager n name fl pw : quiet (showFileManager n name fl pw).
Proof. apply (quiet_screens n). Qed.

Lemma settle_resolves_2xx r rep res :
  settle r rep = inl res <->
  exists code b, rep = Replied code b /\ 200 <= code /\ code < 300
                 /\ res = Response code (seen r b).
Proof.
  split.
  - destruct rep as [code b| |]; simpl; try discriminate.
    destruct (is_2xx code) eqn:E; [|discriminate]. intros [= <-].
    unfold is_2xx in E. apply andb_true_iff in E as [E1 E2].
    apply N.leb_le in E1. apply N.ltb_lt in E2. eauto 10.
  - intros (code & b & -> & H1 & H2 & ->). simpl. unfold is_2xx.
    rewrite (proj2 (N.leb_le _ _) H1), (proj2 (N.ltb_lt _ _) H2). reflexivity.
Qed.

(** *** C1 *)

(** C1, as stated, fails for the download: after it has written the file,
    the only request of the run is the one for the file; the list is not
    fetched again, although the service would now list two files. *)
Lemma download_does_not_refetch :
  ~ refetched (js "demo") (js "pw")
      (trace (snd (downloadFile 3 (js "demo") [a_txt] (js "pw")
         (ready with_credential [FileIndex 0; Action BackToMenu; Choice Exit]
                [Replied 200 (Body (js "hello") None);
                 json_reply 200 (Some (js "abc")) (Some [a_txt; b_txt]) None])))).
Proof.
  unfold refetched. vm_compute. intros [H|H]; [discriminate H|exact H].
Qed.

(** C1, amended: after an upload that the service accepted, the client
    fetches the file list again and opens the file manager with the files
    of that reply (none when the body has no files member); after a
    download it opens the file manager with the list it was given, and
    fetches nothing. *)
Theorem upload_refetches_download_keeps_list n w name pw :
  styles_ready w = true ->
  (forall path rest_in content rep1 rep2 rest_net res1 res2,
     stdin w = FilePath path :: rest_in ->
     disk w !! credential_file = Some content ->
     network w = rep1 :: rep2 :: rest_net ->
     settle (post_upload name path (Dotenv.parse content !! js "auth_token")) rep1
       = inl res1 ->
     settle (get_site name pw) rep2 = inl res2 ->
     uploadFile (S n) name pw w
     = showFileManager n name (default [] (files (response_data res2))) pw
         (advance 1 2
            (upload_events name pw path (Dotenv.parse content !! js "auth_token")) w)
     /\ refetched name pw
          (upload_events name pw path (Dotenv.parse content !! js "auth_token")))
  /\ (forall fl i f rest_in content rep rest_net res,
        stdin w = FileIndex i :: rest_in ->
        fl !! i = Some f ->
        disk w !! credential_file = Some content ->
        network w = rep :: rest_net ->
        settle (get_file (file_id f) (Dotenv.parse content !! js "auth_token")) rep
          = inl res ->
        downloadFile (S n) name fl pw w
        = showFileManager n name fl pw
            (add_trace
               (download_events f (Dotenv.parse content !! js "auth_token")
                  (Path.join [DOWNLOAD_DIR w; file_name f]) (bytes (response_data res)))
               (with_file (Path.join [DOWNLOAD_DIR w; file_name f])
                  (bytes (response_data res)) (consume 1 1 w)))
        /\ ~ refetched name pw
               (download_events f (Dotenv.parse content !! js "auth_token")
                  (Path.join [DOWNLOAD_DIR w; file_name f])
                  (bytes (response_data res)))).
Proof.
  intros Hs. split.
  - intros path rest_in content rep1 rep2 rest_net res1 res2 Hin Hfile Hnet H1 H2.
    split.
    + apply (upload_step_done _ (quiet_showFileManager n) w name pw path rest_in
               content rep1 rep2 rest_net res1 res2); assumption.
    + unfold refetched. cbn [upload_events upload_prompt requests omap].
      right. left. reflexivity.
  - intros fl i f rest_in content rep rest_net res Hin Hf Hfile Hnet Hset. split.
    + apply (download_step_done _ (quiet_showFileManager n) w name fl pw i f rest_in
               content rep rest_net res); assumption.
    + unfold refetched. cbn [download_events download_prompt requests omap].
      intros [H|[]]. discriminate H.
Qed.

(** C1 at work: an upload after which the service lists two files, and a
    download of a.txt. *)
Lemma upload_refetches_download_keeps_list_witness :
  uploadFile 1 (js "demo") (js "pw")
    (ready with_credential [FilePath (js "/tmp/a.txt")]
           [Replied 200 (Body [] None);
            json_reply 200 (Some (js "abc")) (Some [a_txt; b_txt]) None])
  = showFileManager 0 (js "demo") [a_txt; b_txt] (js "pw")
      (advance 1 2
         (upload_events (js "demo") (js "pw") (js "/tmp/a.txt")
            (Dotenv.parse (js "auth_token=abc") !! js "auth_token"))
         (ready with_credential [FilePath (js "/tmp/a.txt")]
                [Replied 200 (Body [] None);
                 json_reply 200 (Some (js "abc")) (Some [a_txt; b_txt]) None]))
  /\ downloadFile 1 (js "demo") [a_txt] (js "pw")
       (ready with_credential [FileIndex 0] [Replied 200 (Body (js "hello") None)])
     = showFileManager 0 (js "demo") [a_txt] (js "pw")
         (add_trace
            (download_events a_txt
               (Dotenv.parse (js "auth_token=abc") !! js "auth_token")
               (js "/home/u/Downloads/cfileshare/a.txt") (js "hello"))
            (with_file (js "/home/u/Downloads/cfileshare/a.txt") (js "hello")
               (consume 1 1
                  (ready with_credential [FileIndex 0]
                         [Replied 200 (Body (js "hello") None)])))).
Proof.
  split.
  - destruct (upload_refetches_download_keeps_list 0
                (ready with_credential [FilePath (js "/tmp/a.txt")]
                       [Replied 200 (Body [] None);
                        json_reply 200 (Some (js "abc")) (Some [a_txt; b_txt]) None])
                (js "demo") (js "pw") eq_refl) as [Hup _].
    apply (Hup (js "/tmp/a.txt") [] (js "auth_token=abc")
               (Replied 200 (Body [] None))
               (json_reply 200 (Some (js "abc")) (Some [a_txt; b_txt]) None) []
               (Response 200 (Raw []))
               (Response 200 (Parsed (Json (Some (js "abc")) (Some [a_txt; b_txt])
                                           None None))));
      vm_compute; reflexivity.
  - destruct (upload_refetches_download_keeps_list 0
                (ready with_credential [FileIndex 0]
                       [Replied 200 (Body (js "hello") None)])
                (js "demo") (js "pw") eq_refl) as [_ Hdown].
    apply (Hdown [a_txt] 0%nat a_txt [] (js "auth_token=abc")
                 (Replied 200 (Body (js "hello") None)) []
                 (Response 200 (Raw (js "hello"))));
      vm_compute; reflexivity.
Defined.

(** *** C4 *)



(** *** C5 *)

(** C5, as stated, fails: the service answers 200 with a body that has no
    auth_token; the access screen returns and no file manager is shown,
    although the user has more answers ready. *)
Lemma access_without_token_shows_no_file_manager :
  ~ file_manager_shown (js "demo")
      (trace (snd (accessEndpoint 5
         (ready ∅ [Credentials (js "demo") (js "pw"); Action BackToMenu; Choice Exit]
                [json_reply 200 None (Some [a_txt]) None])))).
Proof.
  unfold file_manager_shown. vm_compute.
  intros [H|[H|H]]; [discriminate H|discriminate H|exact H].
Qed.

(** C5, amended: an access call that the service answers with a status from
    200 to 299 and a body whose auth_token is truthy opens the file manager
    of that endpoint, with the files of the body (none when it has no files
    member), after it has written the credential file. *)
Theorem access_with_token_opens_file_manager n w name pw rep rest_in rest_net res :
  styles_ready w = true ->
  stdin w = Credentials name pw :: rest_in ->
  network w = rep :: rest_net ->
  settle (get_site name pw) rep = inl res ->
  truthy (auth_token (response_data res)) = true ->
  accessEndpoint (S n) w
  = showFileManager n name (default [] (files (response_data res))) pw
      (add_trace
         (access_events name pw
          ++ [WriteFile credential_file
                (js "auth_token=" ++ default [] (auth_token (response_data res)))])
         (with_file credential_file
            (js "auth_token=" ++ default [] (auth_token (response_data res)))
            (consume 1 1 w))).
Proof.
  intros Hs Hin Hnet Hset Htok.
  apply (access_step_token _ _ (quiet_showFileManager n)
           w name pw rep rest_in rest_net res); assumption.
Qed.

(** C5 at work: the service answers 200 with the token abc and one file. *)
Lemma access_with_token_opens_file_manager_witness :
  accessEndpoint 1
    (ready ∅ [Credentials (js "demo") (js "pw")]
           [json_reply 200 (Some (js "abc")) (Some [a_txt]) None])
  = showFileManager 0 (js "demo") [a_txt] (js "pw")
      (add_trace
         (access_events (js "demo") (js "pw")
          ++ [WriteFile credential_file (js "auth_token=abc")])
         (with_file credential_file (js "auth_token=abc")
            (consume 1 1
               (ready ∅ [Credentials (js "demo") (js "pw")]
                      [json_reply 200 (Some (js "abc")) (Some [a_txt]) None])))).
Proof.
  apply (access_with_token_opens_file_manager 0
           (ready ∅ [Credentials (js "demo") (js "pw")]
                  [json_reply 200 (Some (js "abc")) (Some [a_txt]) None])
           (js "demo") (js "pw")
           (json_reply 200 (Some (js "abc")) (Some [a_txt]) None) [] []
           (Response 200 (Parsed (Json (Some (js "abc")) (Some [a_txt]) None None))));
    reflexivity.
Defined.

(** *** C6 *)

(** C6 on the code: when the download directory cannot be created, the
    catch block reads [styles] before line 29 has run, which throws a
    ReferenceError nobody catches.  Nothing of the program reaches the
    console, [process.exit(1)] is not reached, and the runtime ends the
    process for the uncaught error, with exit code 1 and before any
    screen. *)
Theorem blocked_download_dir_ends_in_reference_error fuel w why :
  download_dir w = Blocked why ->
  styles_ready w = false ->
  run fuel w = (Uncaught (ReferenceError (js "styles")), w)
  /\ exit_code (fst (run fuel w)) = Some 1
  /\ trace (snd (run fuel w)) = trace w.
Proof.
  intros Hd Hs. destruct w as [h d k s i nw t]. simpl in Hd, Hs. subst d s.
  repeat split; reflexivity.
Qed.

(** C6 at work: a regular file stands where the directory should be made. *)
Lemma blocked_download_dir_ends_in_reference_error_witness :
  run 9 (World (js "/home/u") (Blocked (js "EEXIST: file already exists, mkdir"))
               ∅ false [Choice Exit] [] [])
  = (Uncaught (ReferenceError (js "styles")),
     World (js "/home/u") (Blocked (js "EEXIST: file already exists, mkdir"))
           ∅ false [Choice Exit] [] []).
Proof.
  apply (blocked_download_dir_ends_in_reference_error 9
           (World (js "/home/u") (Blocked (js "EEXIST: file already exists, mkdir"))
                  ∅ false [Choice Exit] [] [])
           (js "EEXIST: file already exists, mkdir")); reflexivity.
Defined.

(** When the directory is there or can be created, the program goes on to
    the main menu with [styles] ready. *)
Lemma start_reaches_main_menu fuel w :
  styles_ready w = false ->
  (forall why, download_dir w <> Blocked why) ->
  exists w', styles_ready w' = true /\ download_dir w' = Present
             /\ main fuel w
                = try_catch (showMainMenu fuel)
                    (fun error =>
                       let* line := styles failure (js "Error: " ++ String_error error) in
                       console_error line) w'.
Proof.
  intros Hs Hd. destruct w as [h d k s i nw t]. simpl in Hs. subst s.
  destruct d as [| |why].
  - exists (World h Present k true i nw t). repeat split; reflexivity.
  - exists (World h Present k true i nw
              (t ++ [Mkdir (Path.join [h; js "Downloads"; js "cfileshare"])])).
    repeat split; reflexivity.
  - exfalso. eapply Hd. reflexivity.
Qed.

(** *** C7 *)




(** *** C8 *)



(** *** C9 *)

(** For a record whose file name is a plain name, the download asks for
    /getfile/ and the id with the loaded credential as Authorization, and
    writes the bytes of the response to that name in the download
    directory, over what was there. *)
Lemma download_of_plain_name n w name fl pw i f rest_in content rep rest_net res :
  styles_ready w = true ->
  stdin w = FileIndex i :: rest_in ->
  fl !! i = Some f ->
  plainName (file_name f) = true ->
  disk w !! credential_file = Some content ->
  network w = rep :: rest_net ->
  settle (get_file (file_id f) (Dotenv.parse content !! js "auth_token")) rep
    = inl res ->
  downloadFile (S n) name fl pw w
  = showFileManager n name fl pw
      (add_trace
         (download_events f (Dotenv.parse content !! js "auth_token")
            (DOWNLOAD_DIR w ++ 47 :: file_name f) (bytes (response_data res)))
         (with_file (DOWNLOAD_DIR w ++ 47 :: file_name f)
            (bytes (response_data res)) (consume 1 1 w)))
  /\ url (get_file (file_id f) (Dotenv.parse content !! js "auth_token"))
     = API_URL ++ js "/getfile/" ++ decimal (file_id f)
  /\ headers (get_file (file_id f) (Dotenv.parse content !! js "auth_token"))
     = [(js "Authorization", Dotenv.parse content !! js "auth_token")]
  /\ disk (with_file (DOWNLOAD_DIR w ++ 47 :: file_name f)
             (bytes (response_data res)) (consume 1 1 w))
       !! (DOWNLOAD_DIR w ++ 47 :: file_name f)
     = Some (bytes (response_data res)).
Proof.
  intros Hs Hin Hf Hname Hfile Hnet Hset. repeat split.
  - rewrite <- (download_path_of_plain_name w (file_name f) Hname).
    apply (download_step_done _ (quiet_showFileManager n) w name fl pw i f rest_in
             content rep rest_net res); assumption.
  - destruct w. apply lookup_insert_eq.
Qed.

(** C9 on the code: the download path is [path.join] of the directory and
    the file name of the record, so a file name with parent segments is
    written outside the download directory. *)
Theorem download_writes_outside_download_dir :
  DOWNLOAD_DIR (ready with_credential [FileIndex 0]
                      [Replied 200 (Body (js "data") None)])
  = js "/home/u/Downloads/cfileshare"
  /\ requests (trace (snd (downloadFile 1 (js "demo")
                 [FileRecord 7 (js "../../.bashrc")] (js "pw")
                 (ready with_credential [FileIndex 0]
                        [Replied 200 (Body (js "data") None)]))))
     = [get_file 7 (Some (js "abc"))]
  /\ writes (trace (snd (downloadFile 1 (js "demo")
               [FileRecord 7 (js "../../.bashrc")] (js "pw")
               (ready with_credential [FileIndex 0]
                      [Replied 200 (Body (js "data") None)]))))
     = [(js "/home/u/.bashrc", js "data")].
Proof. repeat split; vm_compute; reflexivity. Qed.

(** *** C10 *)

(** C10.  An access or create call writes the credential file only on a
    reply with a status from 200 to 299 whose body has a truthy auth_token:
    on such a reply without the token, and on a rejected request, the step
    of the screen does no write and leaves the files as they were. *)
Theorem credential_file_written_only_with_token n w name pw rep rest_in rest_net :
  styles_ready w = true ->
  stdin w = Credentials name pw :: rest_in ->
  network w = rep :: rest_net ->
  (forall res,
     settle (get_site name pw) rep = inl res ->
     truthy (auth_token (response_data res)) = false ->
     accessEndpoint (S n) w
     = (Returned tt, advance 1 1 (access_events name pw) w))
  /\ (forall res,
        settle (post_createsite name pw) rep = inl res ->
        truthy (auth_token (response_data res)) = false ->
        createEndpoint (S n) w
        = showMainMenu n (advance 1 1 (create_events name pw) w))
  /\ (forall e,
        settle (get_site name pw) rep = inr e ->
        accessEndpoint (S n) w
        = showMainMenu n
            (advance 1 1
               (access_events name pw
                ++ [Log (Some failure, access_failure e); Sleep 2000]) w))
  /\ (forall e,
        settle (post_createsite name pw) rep = inr e ->
        createEndpoint (S n) w
        = showMainMenu n
            (advance 1 1
               (create_events name pw
                ++ [Log (Some failure, create_failure e); Sleep 2000]) w))
  /\ (forall line, writes (access_events name pw ++ [Log line; Sleep 2000]) = []
                   /\ writes (create_events name pw ++ [Log line; Sleep 2000]) = [])
  /\ (forall es, disk (advance 1 1 es w) = disk w).
Proof.
  intros Hs Hin Hnet. repeat apply conj.
  - intros res Hset Htok.
    apply (access_step_no_token (showMainMenu n) (showFileManager n)
             w name pw rep rest_in rest_net res); assumption.
  - intros res Hset Htok.
    apply (create_step_no_token _ (quiet_showMainMenu n)
             w name pw rep rest_in rest_net res); assumption.
  - intros e Hset.
    apply (access_step_failure _ _ (quiet_showMainMenu n)
             w name pw rep rest_in rest_net e); assumption.
  - intros e Hset.
    apply (create_step_failure _ (quiet_showMainMenu n)
             w name pw rep rest_in rest_net e); assumption.
  - intros line. split; reflexivity.
  - intros es. destruct w. reflexivity.
Qed.

(** C10 at work: an access answered 200 with an empty token, and a create
    answered 201 with no token, with a credential file already there. *)
Lemma credential_file_written_only_with_token_witness :
  accessEndpoint 1
    (ready with_credential [Credentials (js "demo") (js "pw")]
           [json_reply 200 (Some []) (Some [a_txt]) None])
  = (Returned tt,
     advance 1 1 (access_events (js "demo") (js "pw"))
       (ready with_credential [Credentials (js "demo") (js "pw")]
              [json_reply 200 (Some []) (Some [a_txt]) None]))
  /\ createEndpoint 1
       (ready with_credential [Credentials (js "demo") (js "pw")]
              [json_reply 201 None None None])
     = showMainMenu 0
         (advance 1 1 (create_events (js "demo") (js "pw"))
            (ready with_credential [Credentials (js "demo") (js "pw")]
                   [json_reply 201 None None None])).
Proof.
  split.
  - destruct (credential_file_written_only_with_token 0
                (ready with_credential [Credentials (js "demo") (js "pw")]
                       [json_reply 200 (Some []) (Some [a_txt]) None])
                (js "demo") (js "pw") (json_reply 200 (Some []) (Some [a_txt]) None)
                [] [] eq_refl eq_refl eq_refl) as (Haccess & _).
    apply (Haccess (Response 200 (Parsed (Json (Some []) (Some [a_txt]) None None))));
      reflexivity.
  - destruct (credential_file_written_only_with_token 0
                (ready with_credential [Credentials (js "demo") (js "pw")]
                       [json_reply 201 None None None])
                (js "demo") (js "pw") (json_reply 201 None None None)
                [] [] eq_refl eq_refl eq_refl) as (_ & Hcreate & _).
    apply (Hcreate (Response 201 (Parsed (Json None None None None))));
      reflexivity.
Defined.

(** ** More steps of the screens *)

Lemma add_trace_nil w : add_trace [] w = w.
Proof. destruct w. cbn [add_trace]. rewrite app_nil_r. reflexivity. Qed.

Lemma add_trace_app es1 es2 w :
  add_trace es2 (add_trace es1 w) = add_trace (es1 ++ es2) w.
Proof. destruct w. cbn [add_trace]. rewrite app_assoc. reflexivity. Qed.

(** [forEach] over a callback that logs one line visits the elements in
    order and counts them from the start index. *)
Lemma forEach_logs {A} (line : nat -> A -> event) l : forall index w,
  forEach (fun x i => emit (line i x)) index l w
  = (Returned tt, add_trace (imap (fun j => line (index + j)%nat) l) w).
Proof.
  induction l as [|x l IH]; intros index w; cbn [forEach imap].
  - rewrite add_trace_nil. reflexivity.
  - unfold bind at 1. unfold emit at 1. rewrite IH, add_trace_app.
    rewrite Nat.add_0_r. cbn [app]. do 3 f_equal.
    apply imap_ext. intros j y _. cbn. f_equal. lia.
Qed.

Lemma listing_shown files w :
  (if Nat.eqb (length files) 0
   then console_log (plain (js "No files found" ++ nl))
   else
     forEach (fun file index =>
       console_log (plain (decimal (N.of_nat (index + 1)) ++ js ". " ++ page
                             ++ js " " ++ file_name file))) 0 files >>
     console_log (plain [])) w
  = (Returned tt, add_trace (listing files) w).
Proof.
  destruct files as [|f fl]; [reflexivity|]. cbn [length Nat.eqb].
  unfold bind.
  change (forEach _ 0 (f :: fl) w)
    with (forEach (fun x i => emit (file_line i x)) 0 (f :: fl) w).
  rewrite (forEach_logs file_line (f :: fl) 0 w).
  unfold console_log, emit, plain. rewrite add_trace_app. reflexivity.
Qed.

Section MoreSteps.

Variable Kmain Kaccess Kcreate : M unit.
Variable Kfm : text -> list file_record -> text -> M unit.
Variable Kup : text -> text -> M unit.
Variable Kdown : text -> list file_record -> text -> M unit.
Hypothesis quiet_fm : forall name fl pw, quiet (Kfm name fl pw).

Lemma menu_step w o rest_in :
  styles_ready w = true ->
  stdin w = Choice o :: rest_in ->
  showMainMenu_body Kaccess Kcreate w
  = match o with
    | AccessEndpoint => Kaccess
    | CreateEndpoint => Kcreate
    | Exit => process_exit 0
    end (advance 1 0 (header ++ [menu_prompt]) w).
Proof.
  intros Hs Hin. open_world w. subst.
  unfold showMainMenu_body, menu_prompt. unfold_cli. same_world.
  destruct o; reflexivity.
Qed.

Lemma file_manager_step w name fl pw a rest_in :
  styles_ready w = true ->
  stdin w = Action a :: rest_in ->
  showFileManager_body Kmain Kfm Kup Kdown name fl pw w
  = match a with
    | UploadFile => Kup name pw
    | DownloadFile =>
        match fl with
        | [] =>
            fun w' => Kfm name fl pw
              (add_trace [Log (Some info, nl ++ js "No files to download")] w')
        | _ :: _ => Kdown name fl pw
        end
    | BackToMenu => Kmain
    end (advance 1 0 (file_manager_events name fl) w).
Proof.
  intros Hs Hin. unfold showFileManager_body.
  pose proof (listing_shown fl) as HR.
  set (R := if Nat.eqb (length fl) 0 then _ else _) in *. clearbody R.
  open_world w. subst.
  unfold file_manager_events, action_prompt. unfold_cli. rewrite HR. run_cli.
  same_world.
  destruct a; [reflexivity| |reflexivity].
  destruct fl; reflexivity.
Qed.

Lemma upload_step_rejected w name pw path rest_in content rep rest_net e :
  styles_ready w = true ->
  stdin w = FilePath path :: rest_in ->
  disk w !! credential_file = Some content ->
  network w = rep :: rest_net ->
  settle (post_upload name path (Dotenv.parse content !! js "auth_token")) rep
    = inr e ->
  uploadFile_body Kfm name pw w
  = Kfm name [] pw
      (advance 1 1
         [upload_prompt;
          Log (Some info, nl ++ outbox ++ js " Uploading file...");
          Http (post_upload name path (Dotenv.parse content !! js "auth_token"));
          transfer_failure e] w).
Proof.
  intros Hs Hin Hfile Hnet Hset. open_world w. subst.
  unfold uploadFile_body, upload_prompt, transfer_failure. unfold_cli.
  rewrite Hfile. run_cli. rewrite Hset. run_cli.
  destruct (response_error e) as [[|c s]|];
    cbn [truthy nonEmpty orElse default from_option id]; run_cli;
    same_world; settled (Kfm name [] pw) (quiet_fm name [] pw).
Qed.

Lemma upload_step_refetch_rejected w name pw path rest_in content rep1 rep2
    rest_net res1 e :
  styles_ready w = true ->
  stdin w = FilePath path :: rest_in ->
  disk w !! credential_file = Some content ->
  network w = rep1 :: rep2 :: rest_net ->
  settle (post_upload name path (Dotenv.parse content !! js "auth_token")) rep1
    = inl res1 ->
  settle (get_site name pw) rep2 = inr e ->
  uploadFile_body Kfm name pw w
  = Kfm name [] pw
      (advance 1 2
         (upload_events name pw path (Dotenv.parse content !! js "auth_token")
          ++ [transfer_failure e]) w).
Proof.
  intros Hs Hin Hfile Hnet Hset1 Hset2. open_world w. subst.
  unfold uploadFile_body, upload_events, upload_prompt, transfer_failure. unfold_cli.
  rewrite Hfile. run_cli. rewrite Hset1. run_cli. rewrite Hset2. run_cli.
  destruct (response_error e) as [[|c s]|];
    cbn [truthy nonEmpty orElse default from_option id]; run_cli;
    same_world; settled (Kfm name [] pw) (quiet_fm name [] pw).
Qed.

Lemma download_step_rejected w name fl pw i f rest_in content rep rest_net e :
  styles_ready w = true ->
  stdin w = FileIndex i :: rest_in ->
  fl !! i = Some f ->
  disk w !! credential_file = Some content ->
  network w = rep :: rest_net ->
  settle (get_file (file_id f) (Dotenv.parse content !! js "auth_token")) rep
    = inr e ->
  downloadFile_body Kfm name fl pw w
  = Kfm name fl pw
      (advance 1 1
         [download_prompt;
          Log (Some info, nl ++ js "Downloading file...");
          Http (get_file (file_id f) (Dotenv.parse content !! js "auth_token"));
          transfer_failure e] w).
Proof.
  intros Hs Hin Hf Hfile Hnet Hset. open_world w. subst.
  unfold downloadFile_body, download_prompt, transfer_failure. unfold_cli.
  rewrite (proj2 (Nat.ltb_lt _ _) (lookup_lt_Some _ _ _ Hf)). run_cli.
  rewrite Hf. run_cli. rewrite Hfile. run_cli. rewrite Hset. run_cli.
  same_world. settled (Kfm name fl pw) (quiet_fm name fl pw).
Qed.

End MoreSteps.

(** ** What the screens are allowed to do *)

Section Tame.

Lemma tame_at_still {A} (c : M A) w o w' :
  c w = (o, w') ->
  styles_ready w = true ->
  styles_ready w' = styles_ready w -> homedir w' = homedir w -> trace w' = trace w ->
  (forall code, o = Exited code -> code = 0) ->
  tame_at w c.
Proof.
  intros E Hs H1 H2 H3 H4. unfold tame_at. rewrite E. cbn [fst snd].
  split; [congruence|]. split; [exact H2|]. split; [|exact H4].
  exists []. rewrite app_nil_r. split; [exact H3|constructor].
Qed.

Lemma tame_ret {A} (a : A) : tame (ret a).
Proof. intros w H. eapply tame_at_still; try reflexivity; [exact H|discriminate]. Qed.

Lemma tame_throw {A} e : tame (@throw A e).
Proof. intros w H. eapply tame_at_still; try reflexivity; [exact H|discriminate]. Qed.

Lemma tame_pending {A} : tame (@pending A).
Proof. intros w H. eapply tame_at_still; try reflexivity; [exact H|discriminate]. Qed.

Lemma tame_exit {A} : tame (@process_exit A 0).
Proof.
  intros w H. eapply tame_at_still; try reflexivity; [exact H|].
  intros code [= <-]. reflexivity.
Qed.

Lemma tame_styles x s : tame (styles x s).
Proof.
  intros w H. eapply tame_at_still; try reflexivity; try exact H.
  - unfold styles. rewrite H. reflexivity.
  - discriminate.
Qed.

Lemma tame_next_answer : tame next_answer.
Proof.
  intros w H. destruct w as [? ? ? ? [|a i] ? ?];
    (eapply tame_at_still; try reflexivity; [exact H|discriminate]).
Qed.

Lemma tame_readFileSync p : tame (readFileSync p).
Proof.
  intros w H. unfold tame_at, readFileSync.
  destruct (disk w !! p); cbn [fst snd];
    (split; [exact H|]; split; [reflexivity|]; split; [|discriminate];
     exists []; rewrite app_nil_r; split; [reflexivity|constructor]).
Qed.

Lemma tame_at_emit e w :
  styles_ready w = true -> allowed (homedir w) e -> tame_at w (emit e).
Proof.
  intros H He. destruct w. unfold tame_at. cbn.
  split; [exact H|]. split; [reflexivity|]. split; [|discriminate].
  exists [e]. split; [reflexivity|]. constructor; [exact He|constructor].
Qed.

Lemma tame_emit e : (forall home, allowed home e) -> tame (emit e).
Proof. intros He w H. apply tame_at_emit; [exact H|apply He]. Qed.

Lemma tame_at_writeFileSync p c w :
  styles_ready w = true -> allowed (homedir w) (WriteFile p c) ->
  tame_at w (writeFileSync p c).
Proof.
  intros H He. destruct w. unfold tame_at. cbn.
  split; [exact H|]. split; [reflexivity|]. split; [|discriminate].
  exists [WriteFile p c]. split; [reflexivity|]. constructor; [exact He|constructor].
Qed.

Lemma tame_save_credential token : token <> [] -> tame (save_credential token).
Proof.
  intros Ht w H. apply tame_at_writeFileSync; [exact H|].
  left. split; [reflexivity|]. exists token. split; [exact Ht|reflexivity].
Qed.

Lemma tame_at_bind {A B} (c : M A) (k : A -> M B) w :
  tame_at w c ->
  (forall a w', c w = (Returned a, w') -> tame_at w' (k a)) ->
  tame_at w (bind c k).
Proof.
  intros (H1 & H2 & (es & H3 & H4) & H5) Hk. unfold tame_at, bind in *.
  destruct (c w) as [[a| | |] w'] eqn:E; cbn [fst snd] in *.
  - destruct (Hk a w' eq_refl) as (K1 & K2 & (es' & K3 & K4) & K5).
    split; [exact K1|]. split; [congruence|]. split; [|exact K5].
    exists (es ++ es'). rewrite K3, H3, app_assoc. split; [reflexivity|].
    apply Forall_app. split; [exact H4|]. rewrite <- H2. exact K4.
  - split; [exact H1|]. split; [exact H2|]. split; [eauto|discriminate].
  - split; [exact H1|]. split; [exact H2|]. split; [eauto|].
    intros code' [= <-]. apply (H5 code eq_refl).
  - split; [exact H1|]. split; [exact H2|]. split; [eauto|discriminate].
Qed.

Lemma tame_bind {A B} (c : M A) (k : A -> M B) :
  tame c -> (forall a, tame (k a)) -> tame (bind c k).
Proof.
  intros Hc Hk w H. apply tame_at_bind; [apply Hc, H|].
  intros a w' E. apply Hk. pose proof (Hc w H) as (H1 & _). rewrite E in H1. exact H1.
Qed.

Lemma tame_try_catch {A} (c : M A) h :
  tame c -> (forall e, tame (h e)) -> tame (try_catch c h).
Proof.
  intros Hc Hh w H. destruct (Hc w H) as (H1 & H2 & (es & H3 & H4) & H5).
  unfold tame_at, try_catch in *.
  destruct (c w) as [[a| | |] w'] eqn:E; cbn [fst snd] in *.
  - split; [exact H1|]. split; [exact H2|]. split; [eauto|discriminate].
  - destruct (Hh e w' H1) as (K1 & K2 & (es' & K3 & K4) & K5).
    split; [exact K1|]. split; [congruence|]. split; [|exact K5].
    exists (es ++ es'). rewrite K3, H3, app_assoc. split; [reflexivity|].
    apply Forall_app. split; [exact H4|]. rewrite <- H2. exact K4.
  - split; [exact H1|]. split; [exact H2|]. split; [eauto|exact H5].
  - split; [exact H1|]. split; [exact H2|]. split; [eauto|discriminate].
Qed.

Lemma tame_axios r : (forall home, allowed home (Http r)) -> tame (axios r).
Proof.
  intros Hr. apply tame_bind; [apply tame_emit, Hr|]. intros _ w H.
  destruct w as [? ? ? ? ? [|rep nw] ?].
  - eapply tame_at_still; try reflexivity; [exact H|discriminate].
  - cbn [network]. destruct (settle r rep) eqn:E.
    + eapply tame_at_still; [cbn [network]; rewrite E|..]; try reflexivity;
        [exact H|discriminate].
    + eapply tame_at_still; [cbn [network]; rewrite E|..]; try reflexivity;
        [exact H|discriminate].
Qed.

(** The path of a download is joined to the download directory of the
    world the download runs in. *)
Lemma tame_download_dir {B} (k : text -> M B) :
  (forall w, styles_ready w = true -> tame_at w (k (DOWNLOAD_DIR w))) ->
  tame (bind the_download_dir k).
Proof. intros Hk w H. unfold bind, the_download_dir. apply Hk, H. Qed.

Lemma tame_forEach {A} (f : A -> nat -> M unit) l :
  (forall x i, tame (f x i)) -> forall i, tame (forEach f i l).
Proof.
  intros Hf. induction l as [|x l IH]; intros i; simpl.
  - apply tame_ret.
  - apply tame_bind; [apply Hf|]. intros _. apply IH.
Qed.

End Tame.

Ltac allowed_event :=
  solve [ intros ?; exact I
        | intros ?; reflexivity
        | intros ?; cbn [allowed]; eauto 10 ].

Ltac tame_step :=
  first
    [ apply tame_ret | apply tame_throw | apply tame_pending | apply tame_exit
    | apply tame_styles | apply tame_next_answer | apply tame_readFileSync
    | apply tame_emit; allowed_event
    | apply tame_axios; allowed_event
    | apply tame_save_credential; discriminate
    | solve [auto]
    | apply tame_bind; [|intros ?]
    | apply tame_try_catch; [|intros ?]
    | match goal with
      | |- tame (if truthy ?x then _ else _) =>
          destruct x as [[|? ?]|]; cbn [truthy nonEmpty default from_option id]
      | |- tame (match ?x with _ => _ end) => destruct x
      end ].

Ltac tame_all :=
  unfold say, showHeader, pause_then, prompt, ask_credentials, load_credential,
    clear, sleep, console_log, console_error;
  repeat tame_step.

Section TameScreens.

Lemma tame_download (Kfm : text -> list file_record -> text -> M unit)
    name fl pw selectedFile authToken :
  (forall name fl pw, tame (Kfm name fl pw)) ->
  tame (say info (nl ++ js "Downloading file...") >>
        let* response := axios (get_file (file_id selectedFile) authToken) in
        let* dir := the_download_dir in
        let downloadPath := Path.join [dir; file_name selectedFile] in
        writeFileSync downloadPath (bytes (response_data response)) >>
        say success (nl ++ sparkles ++ js " File downloaded to: " ++ downloadPath) >>
        Kfm name fl pw).
Proof.
  intros HK. apply tame_bind; [tame_all|]. intros _.
  apply tame_bind; [tame_all|]. intros response.
  apply tame_download_dir. intros w H. cbv zeta.
  apply tame_at_bind.
  - apply tame_at_writeFileSync; [exact H|]. right.
    exists (file_name selectedFile). reflexivity.
  - intros a w' E. assert (Hs : styles_ready w' = true).
    { unfold writeFileSync in E. injection E as _ Hw. subst w'.
      destruct w. exact H. }
    clear E. revert w' Hs. change (tame (say success
        (nl ++ sparkles ++ js " File downloaded to: "
            ++ Path.join [DOWNLOAD_DIR w; file_name selectedFile]) >> Kfm name fl pw)).
    tame_all.
Qed.

Lemma tame_screens n :
  tame (showMainMenu n) /\ tame (accessEndpoint n) /\ tame (createEndpoint n)
  /\ (forall name fl pw, tame (showFileManager n name fl pw))
  /\ (forall name pw, tame (uploadFile n name pw))
  /\ (forall name fl pw, tame (downloadFile n name fl pw)).
Proof.
  induction n as [|n (Hmain & Haccess & Hcreate & Hfm & Hup & Hdown)].
  - split; [|split; [|split; [|split; [|split]]]];
      [| | |intros name fl pw|intros name pw|intros name fl pw];
      exact tame_pending.
  - split; [|split; [|split; [|split; [|split]]]];
      [| | |intros name fl pw|intros name pw|intros name fl pw].
    + change (tame (showMainMenu_body (accessEndpoint n) (createEndpoint n))).
      unfold showMainMenu_body. tame_all.
    + change (tame (accessEndpoint_body (showMainMenu n) (showFileManager n))).
      unfold accessEndpoint_body. tame_all.
    + change (tame (createEndpoint_body (showMainMenu n))).
      unfold createEndpoint_body. tame_all.
    + change (tame (showFileManager_body (showMainMenu n) (showFileManager n)
                      (uploadFile n) (downloadFile n) name fl pw)).
      unfold showFileManager_body. tame_all.
      apply tame_forEach. intros. tame_all.
    + change (tame (uploadFile_body (showFileManager n) name pw)).
      unfold uploadFile_body. tame_all.
    + change (tame (downloadFile_body (showFileManager n) name fl pw)).
      unfold downloadFile_body.
      apply tame_try_catch; [|intros ?; tame_all].
      apply tame_bind; [tame_all|]. intros fileIndex.
      destruct (fl !! fileIndex) as [selectedFile|]; [|apply tame_throw].
      apply tame_bind; [tame_all|]. intros authToken.
      apply tame_download. exact Hfm.
Qed.

End TameScreens.

(** ** Every screen takes an answer first *)

Section Shrinks.

Lemma shrinks_still {A} (c : M A) :
  (forall w, stdin (snd (c w)) = stdin w) -> shrinks 0 c.
Proof.
  intros H w. rewrite H. destruct (fst (c w)); try exact I; lia.
Qed.

Lemma shrinks_ret {A} (a : A) : shrinks 0 (ret a).
Proof. apply shrinks_still. reflexivity. Qed.

Lemma shrinks_throw {A} e : shrinks 0 (@throw A e).
Proof. apply shrinks_still. reflexivity. Qed.

Lemma shrinks_pending {A} d : shrinks d (@pending A).
Proof. intros w. exact I. Qed.

Lemma shrinks_exit {A} d code : shrinks d (@process_exit A code).
Proof. intros w. exact I. Qed.

Lemma shrinks_emit e : shrinks 0 (emit e).
Proof. apply shrinks_still. intros []. reflexivity. Qed.

Lemma shrinks_styles x s : shrinks 0 (styles x s).
Proof.
  apply shrinks_still. intros w. unfold styles. destruct (styles_ready w); reflexivity.
Qed.

Lemma shrinks_writeFileSync p c : shrinks 0 (writeFileSync p c).
Proof. apply shrinks_still. intros []. reflexivity. Qed.

Lemma shrinks_readFileSync p : shrinks 0 (readFileSync p).
Proof.
  apply shrinks_still. intros w. unfold readFileSync.
  destruct (disk w !! p); reflexivity.
Qed.

Lemma shrinks_the_download_dir : shrinks 0 the_download_dir.
Proof. apply shrinks_still. reflexivity. Qed.

Lemma shrinks_next_answer : shrinks 1 next_answer.
Proof. intros [? ? ? ? [|a i] ? ?]; cbn; [exact I|]. rewrite Nat.add_1_r. apply le_n. Qed.

Lemma shrinks_bind {A B} d (c : M A) (k : A -> M B) :
  shrinks d c -> (forall a, shrinks 0 (k a)) -> shrinks d (bind c k).
Proof.
  intros Hc Hk w. specialize (Hc w). unfold bind.
  destruct (c w) as [[a| | |] w']; cbn [fst snd] in *; try exact I; [|lia].
  specialize (Hk a w'). destruct (k a w') as [[b| | |] w'']; cbn [fst snd] in *;
    try exact I; lia.
Qed.

Lemma shrinks_try_catch {A} d (c : M A) h :
  shrinks d c -> (forall e, shrinks 0 (h e)) -> shrinks d (try_catch c h).
Proof.
  intros Hc Hh w. specialize (Hc w). unfold try_catch.
  destruct (c w) as [[a| | |] w']; cbn [fst snd] in *; try exact I; [lia|].
  specialize (Hh e w'). destruct (h e w') as [[b| | |] w'']; cbn [fst snd] in *;
    try exact I; lia.
Qed.

Lemma shrinks_less {A} d (c : M A) : shrinks d c -> shrinks 0 c.
Proof.
  intros H w. specialize (H w). destruct (fst (c w)); try exact I; lia.
Qed.

Lemma shrinks_axios r : shrinks 0 (axios r).
Proof.
  apply shrinks_bind; [apply shrinks_emit|]. intros _.
  apply shrinks_still. intros w. destruct (network w) as [|rep nw]; [reflexivity|].
  destruct (settle r rep); destruct w; reflexivity.
Qed.

Lemma shrinks_prompt {A} messages (pick : answer -> option A) :
  shrinks 1 (prompt messages pick).
Proof.
  intros [? ? ? ? [|a i] ? ?]; unfold prompt, bind, emit, next_answer; cbn;
    [exact I|].
  destruct (pick a); cbn; [|exact I]. rewrite Nat.add_1_r. apply le_n.
Qed.

Lemma shrinks_forEach {A} (f : A -> nat -> M unit) l :
  (forall x i, shrinks 0 (f x i)) -> forall i, shrinks 0 (forEach f i l).
Proof.
  intros Hf. induction l as [|x l IH]; intros i; simpl.
  - apply shrinks_ret.
  - apply shrinks_bind; [apply Hf|]. intros _. apply IH.
Qed.

Lemma agree_same {A} m (c : M A) : agree m c c.
Proof. intros w _. reflexivity. Qed.

Lemma agree_bind {A B} d m (c : M A) (k k' : A -> M B) :
  shrinks d c -> (forall a, agree m (k a) (k' a)) ->
  agree (d + m) (bind c k) (bind c k').
Proof.
  intros Hc Hk w Hw. specialize (Hc w). unfold bind.
  destruct (c w) as [[a| | |] w']; cbn [fst snd] in *; try reflexivity.
  apply Hk. lia.
Qed.

Lemma agree_try_catch {A} d m (c c' : M A) h h' :
  agree (d + m) c c' -> shrinks d c -> (forall e, agree m (h e) (h' e)) ->
  agree (d + m) (try_catch c h) (try_catch c' h').
Proof.
  intros Hcc Hc Hh w Hw. specialize (Hc w). unfold try_catch.
  rewrite <- (Hcc w Hw).
  destruct (c w) as [[a| | |] w']; cbn [fst snd] in *; try reflexivity.
  apply Hh. lia.
Qed.

End Shrinks.

Ltac shrinks_step :=
  first
    [ apply shrinks_ret | apply shrinks_throw | apply shrinks_pending
    | apply shrinks_exit | apply shrinks_emit | apply shrinks_styles
    | apply shrinks_writeFileSync | apply shrinks_readFileSync
    | apply shrinks_the_download_dir | apply shrinks_axios
    | apply shrinks_forEach; intros ? ?
    | apply (shrinks_less 1); apply shrinks_prompt
    | solve [auto]
    | apply shrinks_bind; [|intros ?]
    | apply shrinks_try_catch; [|intros ?]
    | match goal with
      | |- shrinks _ (match ?x with _ => _ end) => destruct x
      end ].

Ltac shrinks_all :=
  unfold say, showHeader, pause_then, ask_credentials, save_credential,
    load_credential, clear, sleep, console_log, console_error;
  repeat shrinks_step.

(** A block that starts with a prompt. *)
Ltac shrinks_prompted :=
  unfold ask_credentials;
  apply shrinks_bind; [apply shrinks_prompt|intros ?; shrinks_all].

Ltac agree_step :=
  first
    [ apply agree_same
    | solve [auto]
    | apply (agree_bind 1); [apply shrinks_prompt|intros ?]
    | apply (agree_bind 0); [solve [shrinks_all]|intros ?]
    | apply (agree_try_catch 1); [|solve [shrinks_prompted]|intros ?]
    | apply (agree_try_catch 0); [|solve [shrinks_all]|intros ?]
    | match goal with
      | |- agree _ (match ?x with _ => _ end) (match ?x with _ => _ end) => destruct x
      end ].

Ltac agree_all :=
  unfold showHeader, pause_then, ask_credentials;
  repeat agree_step.

Section Progress.

Lemma shrinks_screens n :
  shrinks 0 (showMainMenu n) /\ shrinks 0 (accessEndpoint n)
  /\ shrinks 0 (createEndpoint n)
  /\ (forall name fl pw, shrinks 0 (showFileManager n name fl pw))
  /\ (forall name pw, shrinks 0 (uploadFile n name pw))
  /\ (forall name fl pw, shrinks 0 (downloadFile n name fl pw)).
Proof.
  induction n as [|n (Hmain & Haccess & Hcreate & Hfm & Hup & Hdown)].
  - split; [|split; [|split; [|split; [|split]]]];
      [| | |intros name fl pw|intros name pw|intros name fl pw];
      exact (shrinks_pending 0).
  - split; [|split; [|split; [|split; [|split]]]];
      [| | |intros name fl pw|intros name pw|intros name fl pw].
    + change (shrinks 0 (showMainMenu_body (accessEndpoint n) (createEndpoint n))).
      unfold showMainMenu_body. shrinks_all.
    + change (shrinks 0 (accessEndpoint_body (showMainMenu n) (showFileManager n))).
      unfold accessEndpoint_body. shrinks_all.
    + change (shrinks 0 (createEndpoint_body (showMainMenu n))).
      unfold createEndpoint_body. shrinks_all.
    + change (shrinks 0 (showFileManager_body (showMainMenu n) (showFileManager n)
                           (uploadFile n) (downloadFile n) name fl pw)).
      unfold showFileManager_body. shrinks_all.
    + change (shrinks 0 (uploadFile_body (showFileManager n) name pw)).
      unfold uploadFile_body. shrinks_all.
    + change (shrinks 0 (downloadFile_body (showFileManager n) name fl pw)).
      unfold downloadFile_body. shrinks_all.
Qed.

Lemma agree_screens n :
  agree n (showMainMenu n) (showMainMenu (S n))
  /\ agree n (accessEndpoint n) (accessEndpoint (S n))
  /\ agree n (createEndpoint n) (createEndpoint (S n))
  /\ (forall name fl pw,
        agree n (showFileManager n name fl pw) (showFileManager (S n) name fl pw))
  /\ (forall name pw, agree n (uploadFile n name pw) (uploadFile (S n) name pw))
  /\ (forall name fl pw,
        agree n (downloadFile n name fl pw) (downloadFile (S n) name fl pw)).
Proof.
  induction n as [|n (Hmain & Haccess & Hcreate & Hfm & Hup & Hdown)].
  - split; [|split; [|split; [|split; [|split]]]];
      [| | |intros name fl pw|intros name pw|intros name fl pw];
      intros w Hw; inversion Hw.
  - destruct (shrinks_screens n) as (Smain & Saccess & Screate & Sfm & Sup & Sdown).
    destruct (shrinks_screens (S n)) as (Tmain & Taccess & Tcreate & Tfm & Tup & Tdown).
    split; [|split; [|split; [|split; [|split]]]];
      [| | |intros name fl pw|intros name pw|intros name fl pw].
    + change (agree (1 + n)
                (showMainMenu_body (accessEndpoint n) (createEndpoint n))
                (showMainMenu_body (accessEndpoint (S n)) (createEndpoint (S n)))).
      unfold showMainMenu_body. agree_all.
    + change (agree (1 + n)
                (accessEndpoint_body (showMainMenu n) (showFileManager n))
                (accessEndpoint_body (showMainMenu (S n)) (showFileManager (S n)))).
      unfold accessEndpoint_body. agree_all.
    + change (agree (1 + n) (createEndpoint_body (showMainMenu n))
                (createEndpoint_body (showMainMenu (S n)))).
      unfold createEndpoint_body. agree_all.
    + change (agree (1 + n)
                (showFileManager_body (showMainMenu n) (showFileManager n)
                   (uploadFile n) (downloadFile n) name fl pw)
                (showFileManager_body (showMainMenu (S n)) (showFileManager (S n))
                   (uploadFile (S n)) (downloadFile (S n)) name fl pw)).
      unfold showFileManager_body. agree_all.
    + change (agree (1 + n) (uploadFile_body (showFileManager n) name pw)
                (uploadFile_body (showFileManager (S n)) name pw)).
      unfold uploadFile_body. agree_all.
    + change (agree (1 + n) (downloadFile_body (showFileManager n) name fl pw)
                (downloadFile_body (showFileManager (S n)) name fl pw)).
      unfold downloadFile_body. agree_all.
Qed.

End Progress.

(** ** [path.join] on names with no parent segment *)

Section Below.
Import Path.

(** The download directory is the normal form of a path that ends in the
    segment cfileshare. *)
Lemma download_dir_normal w :
  exists p,
    DOWNLOAD_DIR w = normalize p /\ p <> [] /\ last p <> Some 47
    /\ foldl (segment (negb (bool_decide (head p = Some 47)))) [] (split p) <> [].
Proof.
  unfold DOWNLOAD_DIR, join. cbn [List.filter].
  destruct (nonEmpty (homedir w)) eqn:Eh.
  - exists (homedir w ++ 47 :: js "Downloads" ++ 47 :: js "cfileshare").
    split; [reflexivity|]. split; [destruct (homedir w); discriminate|]. split.
    + change (homedir w ++ 47 :: js "Downloads" ++ 47 :: js "cfileshare")
        with (homedir w ++ (47 :: js "Downloads" ++ 47 :: js "cfileshar") ++ [101]).
      rewrite app_assoc, last_snoc. discriminate.
    + rewrite split_app_sep, foldl_app.
      change (split (js "Downloads" ++ 47 :: js "cfileshare"))
        with [js "Downloads"; js "cfileshare"].
      cbn [foldl].
      rewrite (segment_plainName _ _ (js "Downloads")) by reflexivity.
      rewrite (segment_plainName _ _ (js "cfileshare")) by reflexivity.
      discriminate.
  - exists (js "Downloads" ++ 47 :: js "cfileshare").
    split; [reflexivity|]. repeat split; vm_compute; discriminate.
Qed.

Lemma normalize_normal p :
  p <> [] -> last p <> Some 47 ->
  foldl (segment (negb (bool_decide (head p = Some 47)))) [] (split p) <> [] ->
  normal (bool_decide (head p = Some 47))
    (foldl (segment (negb (bool_decide (head p = Some 47)))) [] (split p))
    (normalize p).
Proof.
  intros Hp Hlast Hst. split; [exact Hst|]. split.
  - apply kept_foldl; [constructor|apply split_segments].
  - apply normalize_kept; assumption.
Qed.

Lemma kept_rev_segments allow st :
  kept allow st ->
  Forall (fun seg => noSeparator seg = true) (rev st)
  /\ Forall (fun seg => seg <> []) (rev st).
Proof.
  intros H. split; apply Forall_forall; intros seg Hin; apply (proj1 (elem_of_rev seg st)) in Hin.
  - pose proof (kept_no_separator _ _ H) as Hall. rewrite Forall_forall in Hall.
    exact (Hall _ Hin).
  - pose proof (kept_not_empty _ _ H) as Hall. rewrite Forall_forall in Hall.
    exact (Hall _ Hin).
Qed.

Lemma unsplit_not_nil l :
  l <> [] -> Forall (fun seg : text => seg <> []) l -> unsplit l <> [].
Proof.
  destruct l as [|x l]; [congruence|]. intros _ H. inversion H; subst.
  destruct x as [|c x]; [congruence|]. destruct l; discriminate.
Qed.

Lemma last_unsplit l (seg : text) :
  seg <> [] -> last (unsplit (l ++ [seg])) = last seg.
Proof.
  intros Hseg. destruct l as [|x l]; [reflexivity|].
  rewrite unsplit_snoc by discriminate.
  change (unsplit (x :: l) ++ 47 :: seg) with (unsplit (x :: l) ++ [47] ++ seg).
  rewrite app_assoc, last_app.
  destruct (last seg) eqn:El; [reflexivity|]. apply last_None in El. congruence.
Qed.

(** What a normal form is made of. *)
Lemma normal_parts abs st D :
  normal abs st D ->
  D <> [] /\ bool_decide (head D = Some 47) = abs /\ last D <> Some 47
  /\ foldl (segment (negb abs)) [] (split D) = st.
Proof.
  intros (Hst & Hkept & ->).
  destruct (kept_rev_segments _ _ Hkept) as (Hsep & Hne).
  pose proof (rev_not_nil st Hst) as Hrev.
  pose proof (unsplit_not_nil _ Hrev Hne) as HB.
  set (B := unsplit (rev st)) in *.
  assert (HheadB : head B <> Some 47).
  { unfold B. destruct (rev st) as [|seg l] eqn:E; [congruence|].
    inversion Hsep; subst. inversion Hne; subst.
    destruct (head_no_separator seg) as (c & Hc & Hc47); try assumption.
    rewrite (unsplit_head (seg :: l) seg c eq_refl Hc). congruence. }
  assert (HlastB : last B <> Some 47).
  { unfold B. destruct st as [|top st']; [congruence|]. cbn [rev].
    assert (Htop : top <> [] /\ noSeparator top = true).
    { pose proof (kept_not_empty _ _ Hkept) as H1.
      pose proof (kept_no_separator _ _ Hkept) as H2.
      inversion H1; inversion H2; subst. split; assumption. }
    destruct Htop as (Ht0 & Hts). rewrite (last_unsplit _ _ Ht0).
    apply last_no_separator; assumption. }
  split; [destruct abs; [discriminate|exact HB]|]. split; [|split].
  - destruct abs; [reflexivity|]. cbn [app]. apply bool_decide_eq_false_2.
    exact HheadB.
  - destruct abs; cbn [app]; [|exact HlastB].
    destruct B as [|b B'] eqn:EB; [congruence|].
    change (47 :: b :: B') with ([47] ++ b :: B'). rewrite last_app.
    destruct (last (b :: B')) eqn:El; [exact HlastB|].
    apply last_None in El. discriminate.
  - destruct abs; cbn [app].
    + change (split (47 :: B)) with ([] :: split B).
      rewrite foldl_segment_empty. unfold B.
      rewrite split_unsplit by assumption. apply kept_stable. exact Hkept.
    + unfold B. rewrite split_unsplit by assumption. apply kept_stable. exact Hkept.
Qed.

Lemma foldl_named allow segs : forall st,
  forallb (fun seg => negb (bool_decide (seg = js ".."))) segs = true ->
  foldl (segment allow) st segs = rev (named segs) ++ st.
Proof.
  induction segs as [|seg segs IH]; intros st H; [reflexivity|].
  cbn [forallb] in H. apply andb_true_iff in H as [Hseg H].
  apply negb_true_iff in Hseg.
  cbn [foldl named List.filter]. rewrite (IH _ H). unfold segment. rewrite Hseg.
  destruct (bool_decide (seg = []) || bool_decide (seg = js ".")); cbn [negb].
  - reflexivity.
  - cbn [rev]. rewrite <- app_assoc. reflexivity.
Qed.

Lemma unsplit_app l ks :
  l <> [] -> unsplit (l ++ ks) = unsplit l ++ concat (List.map (cons 47) ks).
Proof.
  revert l. induction ks as [|k ks IH]; intros l Hl.
  - rewrite !app_nil_r. reflexivity.
  - change (l ++ k :: ks) with (l ++ [k] ++ ks). rewrite app_assoc.
    rewrite IH by (destruct l; discriminate).
    rewrite unsplit_snoc by exact Hl. rewrite <- app_assoc. reflexivity.
Qed.

(** Joined to a normal form, a name with no parent segment gives a path
    that starts with the normal form, and goes on, if at all, with a
    separator. *)
Lemma join_below abs st D name :
  normal abs st D -> noParent name = true ->
  exists more, join [D; name] = D ++ more /\ (more = [] \/ head more = Some 47).
Proof.
  intros HD Hname. pose proof (normal_parts _ _ _ HD) as (HDne & Habs & Hlast & Hsplit).
  destruct HD as (Hst & Hkept & ED).
  destruct (kept_rev_segments _ _ Hkept) as (Hsep & Hne).
  pose proof (rev_not_nil st Hst) as Hrev.
  pose proof (unsplit_not_nil _ Hrev Hne) as HB.
  unfold join. cbn [List.filter]. rewrite (nonEmpty_true D HDne).
  destruct name as [|c name'] eqn:En.
  - exists []. rewrite app_nil_r. split; [|left; reflexivity].
    cbn [nonEmpty unsplit]. unfold normalize. rewrite (nonEmpty_true D HDne).
    cbn [negb]. rewrite Habs, (bool_decide_eq_false_2 _ Hlast).
    unfold normalizeString. rewrite Hsplit.
    rewrite (nonEmpty_true _ HB). cbn [negb]. rewrite ED.
    destruct abs; reflexivity.
  - rewrite <- En in *. assert (Hn0 : name <> []) by (subst; discriminate).
    clear En c name'. rewrite (nonEmpty_true name Hn0). cbn [unsplit].
    unfold normalize.
    assert (Hq : nonEmpty (D ++ 47 :: name) = true).
    { apply nonEmpty_true. destruct D; discriminate. }
    rewrite Hq. cbn [negb].
    assert (Habs' : bool_decide (head (D ++ 47 :: name) = Some 47) = abs).
    { rewrite <- Habs. destruct D; [congruence|reflexivity]. }
    rewrite Habs'. unfold normalizeString.
    rewrite split_app_sep, foldl_app, Hsplit.
    rewrite (foldl_named _ _ _ Hname). rewrite rev_app_distr, rev_involutive.
    rewrite (unsplit_app _ _ Hrev).
    set (B := unsplit (rev st)) in *.
    set (tail := concat (List.map (cons 47) (named (split name)))).
    assert (Hne' : nonEmpty (B ++ tail) = true).
    { apply nonEmpty_true. destruct B; [congruence|discriminate]. }
    rewrite Hne'. cbn [negb].
    set (trailing := bool_decide (last (D ++ 47 :: name) = Some 47)).
    exists (tail ++ if trailing then [47] else []).
    split.
    + rewrite ED. fold B.
      destruct trailing; destruct abs; cbn [app];
        rewrite <- ?app_assoc, ?app_nil_r; reflexivity.
    + unfold tail. destruct (named (split name)) as [|k ks].
      * cbn [List.map concat app].
        destruct trailing; [right; reflexivity|left; reflexivity].
      * right. reflexivity.
Qed.

End Below.

(** ** The worlds of a run *)

Section Worlds.

Lemma advance_parts a r es w :
  styles_ready (advance a r es w) = styles_ready w
  /\ stdin (advance a r es w) = drop a (stdin w)
  /\ network (advance a r es w) = drop r (network w)
  /\ disk (advance a r es w) = disk w
  /\ homedir (advance a r es w) = homedir w
  /\ trace (advance a r es w) = trace w ++ es.
Proof. destruct w. repeat split; reflexivity. Qed.

Lemma advance_add_trace a r es es' w :
  add_trace es' (advance a r es w) = advance a r (es ++ es') w.
Proof. unfold advance. apply add_trace_app. Qed.

Lemma started_parts w :
  styles_ready (started w) = true
  /\ stdin (started w) = stdin w
  /\ network (started w) = network w
  /\ disk (started w) = disk w
  /\ homedir (started w) = homedir w
  /\ trace (started w)
     = trace w ++ match download_dir w with
                  | Present => []
                  | _ => [Mkdir (DOWNLOAD_DIR w)]
                  end.
Proof.
  destruct w as [h d k s i nw t]. destruct d; cbn; rewrite ?app_nil_r;
    repeat split; reflexivity.
Qed.

(** When the download directory is there or can be made, the program
    opens the main menu in the started world, and what the main menu
    does is what the process does. *)
Lemma main_started fuel w :
  (forall why, download_dir w <> Blocked why) ->
  main fuel w = showMainMenu fuel (started w).
Proof.
  intros Hd. destruct w as [h d k s i nw t]. destruct d as [| |why].
  - apply (try_catch_quiet (showMainMenu fuel)); [apply quiet_showMainMenu|reflexivity].
  - apply (try_catch_quiet (showMainMenu fuel)); [apply quiet_showMainMenu|reflexivity].
  - exfalso. eapply Hd. reflexivity.
Qed.

Lemma run_started fuel w :
  (forall why, download_dir w <> Blocked why) ->
  run fuel w
  = match showMainMenu fuel (started w) with
    | (Returned _, w') => (ExitCode 0, w')
    | (Threw e, w') => (Uncaught e, w')
    | (Exited code, w') => (ExitCode code, w')
    | (Pending, w') => (Running, w')
    end.
Proof. intros Hd. unfold run. rewrite (main_started fuel w Hd). reflexivity. Qed.

Lemma requests_none es :
  Forall (fun e => forall r, e <> Http r) es -> requests es = [].
Proof.
  unfold requests. induction 1 as [|e es He _ IH]; [reflexivity|].
  destruct e; cbn; try exact IH. exfalso. eapply He. reflexivity.
Qed.

Lemma writes_none es :
  Forall (fun e => forall p c, e <> WriteFile p c) es -> writes es = [].
Proof.
  unfold writes. induction 1 as [|e es He _ IH]; [reflexivity|].
  destruct e; cbn; try exact IH. exfalso. eapply He. reflexivity.
Qed.

Lemma listing_logs files :
  Forall (fun e => exists line, e = Log line) (listing files).
Proof.
  destruct files as [|f fl]; [repeat constructor; eauto|].
  unfold listing. apply Forall_app. split; [|repeat constructor; eauto].
  generalize (f :: fl). intros l. unfold file_line.
  generalize 0%nat at 1. induction l as [|x l IH]; intros i; [constructor|].
  apply Forall_forall. intros e He. apply elem_of_lookup_imap in He.
  destruct He as (j & y & -> & _). eauto.
Qed.

Lemma file_manager_events_quiet name files :
  requests (file_manager_events name files) = []
  /\ writes (file_manager_events name files) = [].
Proof.
  assert (H : Forall (fun e => match e with
                               | Clear | Log _ | Prompt _ => True
                               | _ => False
                               end)
                (file_manager_events name files)).
  { unfold file_manager_events, header, action_prompt.
    apply Forall_app. split; [repeat constructor|].
    apply Forall_app. split; [repeat constructor|].
    apply Forall_app. split; [|repeat constructor].
    eapply Forall_impl; [apply listing_logs|]. intros e (line & ->). exact I. }
  split; [apply requests_none|apply writes_none];
    (eapply Forall_impl; [exact H|]); intros e He; destruct e;
    try contradiction; discriminate.
Qed.

End Worlds.

(** ** The main menu (lines 55-80) *)

(** X1.  The main menu shows the header and its prompt, and then does what
    the user chose: it opens the access screen, opens the create screen, or
    ends the process with the exit code 0. *)
Theorem main_menu_opens_chosen_screen n w o rest_in :
  styles_ready w = true ->
  stdin w = Choice o :: rest_in ->
  showMainMenu (S n) w
  = match o with
    | AccessEndpoint => accessEndpoint n
    | CreateEndpoint => createEndpoint n
    | Exit => process_exit 0
    end (advance 1 0 (header ++ [menu_prompt]) w).
Proof.
  intros Hs Hin.
  apply (menu_step (accessEndpoint n) (createEndpoint n) w o rest_in); assumption.
Qed.

(** X1 at work: the user leaves at once. *)
Lemma main_menu_opens_chosen_screen_witness :
  showMainMenu 1 (ready ∅ [Choice Exit] [])
  = (Exited 0, advance 1 0 (header ++ [menu_prompt]) (ready ∅ [Choice Exit] [])).
Proof.
  apply (main_menu_opens_chosen_screen 0 (ready ∅ [Choice Exit] []) Exit []);
    reflexivity.
Defined.



(** ** The file manager (lines 189-232) *)

(** X3.  The file manager shows the header, the endpoint, and then one line
    for every file, in the order of the list and numbered from 1, with an
    empty line after them, or the line No files found when the list is
    empty; it sends no request and writes no file for that.  Then it does
    what the user chose: it opens the upload for the endpoint, the download
    for the same list, or the main menu. *)
Theorem file_manager_lists_files_and_dispatches n w name fl pw a rest_in :
  styles_ready w = true ->
  stdin w = Action a :: rest_in ->
  (a = DownloadFile -> fl <> []) ->
  showFileManager (S n) name fl pw w
  = match a with
    | UploadFile => uploadFile n name pw
    | DownloadFile => downloadFile n name fl pw
    | BackToMenu => showMainMenu n
    end (advance 1 0 (file_manager_events name fl) w)
  /\ requests (file_manager_events name fl) = []
  /\ writes (file_manager_events name fl) = [].
Proof.
  intros Hs Hin Hfl. split; [|apply file_manager_events_quiet].
  change (showFileManager (S n) name fl pw w)
    with (showFileManager_body (showMainMenu n) (showFileManager n)
            (uploadFile n) (downloadFile n) name fl pw w).
  rewrite (file_manager_step _ _ _ _ w name fl pw a rest_in Hs Hin).
  destruct a; try reflexivity.
  destruct fl; [exfalso; apply Hfl; reflexivity|reflexivity].
Qed.

(** X3 at work: two files, and the user goes back to the main menu. *)
Lemma file_manager_lists_files_and_dispatches_witness :
  showFileManager 1 (js "demo") [a_txt; b_txt] (js "pw")
    (ready ∅ [Action BackToMenu] [])
  = showMainMenu 0
      (advance 1 0
         (header
          ++ [Log (Some info, nl ++ js "Endpoint: demo");
              Log (Some endpoint, js "GET /site/demo" ++ nl);
              Log (None, js "1. " ++ page ++ js " a.txt");
              Log (None, js "2. " ++ page ++ js " b.txt");
              Log (None, []);
              action_prompt])
         (ready ∅ [Action BackToMenu] [])).
Proof.
  destruct (file_manager_lists_files_and_dispatches 0
              (ready ∅ [Action BackToMenu] []) (js "demo") [a_txt; b_txt] (js "pw")
              BackToMenu [] eq_refl eq_refl ltac:(discriminate)) as [E _].
  exact E.
Defined.

(** X4.  With an empty list, the download action asks for no file and sends
    no request: the file manager says that there are no files to download
    and opens again, with the same empty list. *)
Theorem download_with_no_files_shows_file_manager_again n w name pw rest_in :
  styles_ready w = true ->
  stdin w = Action DownloadFile :: rest_in ->
  showFileManager (S n) name [] pw w
  = showFileManager n name [] pw
      (advance 1 0
         (file_manager_events name []
          ++ [Log (Some info, nl ++ js "No files to download")]) w)
  /\ requests (file_manager_events name []
               ++ [Log (Some info, nl ++ js "No files to download")]) = [].
Proof.
  intros Hs Hin. split; [|reflexivity].
  change (showFileManager (S n) name [] pw w)
    with (showFileManager_body (showMainMenu n) (showFileManager n)
            (uploadFile n) (downloadFile n) name [] pw w).
  rewrite (file_manager_step _ _ _ _ w name [] pw DownloadFile rest_in Hs Hin).
  rewrite advance_add_trace. reflexivity.
Qed.

(** X4 at work. *)
Lemma download_with_no_files_shows_file_manager_again_witness :
  showFileManager 1 (js "demo") [] (js "pw") (ready ∅ [Action DownloadFile] [])
  = showFileManager 0 (js "demo") [] (js "pw")
      (advance 1 0
         (file_manager_events (js "demo") []
          ++ [Log (Some info, nl ++ js "No files to download")])
         (ready ∅ [Action DownloadFile] [])).
Proof.
  destruct (download_with_no_files_shows_file_manager_again 0
              (ready ∅ [Action DownloadFile] []) (js "demo") (js "pw") []
              eq_refl eq_refl) as [E _].
  exact E.
Defined.

(** ** Transfers that fail (lines 259-288 and 306-325) *)

(** X5.  When the service rejects the upload request, the list is not
    fetched: the upload logs the error member of the response body, or else
    the message of the error, and opens the file manager with an empty
    list, whatever files the endpoint has. *)
Theorem rejected_upload_opens_empty_file_manager
    n w name pw path rest_in content rep rest_net e :
  styles_ready w = true ->
  stdin w = FilePath path :: rest_in ->
  disk w !! credential_file = Some content ->
  network w = rep :: rest_net ->
  settle (post_upload name path (Dotenv.parse content !! js "auth_token")) rep
    = inr e ->
  uploadFile (S n) name pw w
  = showFileManager n name [] pw
      (advance 1 1
         [upload_prompt;
          Log (Some info, nl ++ outbox ++ js " Uploading file...");
          Http (post_upload name path (Dotenv.parse content !! js "auth_token"));
          transfer_failure e] w)
  /\ ~ refetched name pw
         [upload_prompt;
          Log (Some info, nl ++ outbox ++ js " Uploading file...");
          Http (post_upload name path (Dotenv.parse content !! js "auth_token"));
          transfer_failure e].
Proof.
  intros Hs Hin Hfile Hnet Hset. split.
  - apply (upload_step_rejected _ (quiet_showFileManager n) w name pw path rest_in
             content rep rest_net e); assumption.
  - unfold refetched. cbn [requests omap upload_prompt transfer_failure].
    intros [H|[]]. discriminate H.
Qed.

(** X5 at work: the service answers 413 with an error member. *)
Lemma rejected_upload_opens_empty_file_manager_witness :
  exists e,
    uploadFile 1 (js "demo") (js "pw")
      (ready with_credential [FilePath (js "/tmp/a.txt")]
             [json_reply 413 None None (Some (js "too large"))])
    = showFileManager 0 (js "demo") [] (js "pw")
        (advance 1 1
           [upload_prompt;
            Log (Some info, nl ++ outbox ++ js " Uploading file...");
            Http (post_upload (js "demo") (js "/tmp/a.txt")
                    (Dotenv.parse (js "auth_token=abc") !! js "auth_token"));
            transfer_failure e]
           (ready with_credential [FilePath (js "/tmp/a.txt")]
                  [json_reply 413 None None (Some (js "too large"))]))
    /\ transfer_failure e
       = Log (Some failure, nl ++ cross ++ js " Error: too large").
Proof.
  eexists. split.
  - destruct (rejected_upload_opens_empty_file_manager 0
                (ready with_credential [FilePath (js "/tmp/a.txt")]
                       [json_reply 413 None None (Some (js "too large"))])
                (js "demo") (js "pw") (js "/tmp/a.txt") [] (js "auth_token=abc")
                (json_reply 413 None None (Some (js "too large"))) [] _
                eq_refl eq_refl eq_refl eq_refl eq_refl) as [E _].
    exact E.
  - reflexivity.
Defined.

(** X6.  When the service accepts the upload and then rejects the request
    for the list, the upload says that the file was uploaded, logs the
    error, and opens the file manager with an empty list. *)
Theorem failed_refetch_opens_empty_file_manager
    n w name pw path rest_in content rep1 rep2 rest_net res1 e :
  styles_ready w = true ->
  stdin w = FilePath path :: rest_in ->
  disk w !! credential_file = Some content ->
  network w = rep1 :: rep2 :: rest_net ->
  settle (post_upload name path (Dotenv.parse content !! js "auth_token")) rep1
    = inl res1 ->
  settle (get_site name pw) rep2 = inr e ->
  uploadFile (S n) name pw w
  = showFileManager n name [] pw
      (advance 1 2
         (upload_events name pw path (Dotenv.parse content !! js "auth_token")
          ++ [transfer_failure e]) w).
Proof.
  intros Hs Hin Hfile Hnet Hset1 Hset2.
  apply (upload_step_refetch_rejected _ (quiet_showFileManager n) w name pw path
           rest_in content rep1 rep2 rest_net res1 e); assumption.
Qed.

(** X6 at work: the upload is answered 200, the request for the list is
    not answered. *)
Lemma failed_refetch_opens_empty_file_manager_witness :
  exists e,
    uploadFile 1 (js "demo") (js "pw")
      (ready with_credential [FilePath (js "/tmp/a.txt")]
             [Replied 200 (Body [] None); NoResponse (js "timeout")])
    = showFileManager 0 (js "demo") [] (js "pw")
        (advance 1 2
           (upload_events (js "demo") (js "pw") (js "/tmp/a.txt")
              (Dotenv.parse (js "auth_token=abc") !! js "auth_token")
            ++ [transfer_failure e])
           (ready with_credential [FilePath (js "/tmp/a.txt")]
                  [Replied 200 (Body [] None); NoResponse (js "timeout")]))
    /\ transfer_failure e = Log (Some failure, nl ++ cross ++ js " Error: timeout").
Proof.
  eexists. split.
  - apply (failed_refetch_opens_empty_file_manager 0
             (ready with_credential [FilePath (js "/tmp/a.txt")]
                    [Replied 200 (Body [] None); NoResponse (js "timeout")])
             (js "demo") (js "pw") (js "/tmp/a.txt") [] (js "auth_token=abc")
             (Replied 200 (Body [] None)) (NoResponse (js "timeout")) []
             (Response 200 (Raw []))); reflexivity.
  - reflexivity.
Defined.

Lemma rejected_download_has_no_error_member id authToken rep e :
  settle (get_file id authToken) rep = inr e -> response_error e = None.
Proof.
  destruct rep as [code b| |]; simpl; [|intros [= <-]; reflexivity..].
  destruct (is_2xx code); [discriminate|]. intros [= <-]. reflexivity.
Qed.

(** X7.  When the service rejects the request for a file, the download
    writes nothing and opens the file manager with the list it was given.
    The body of the response is asked for as bytes, so its error member is
    never read: the line logged is the message of the error, which for a
    reply of the service is Request failed with status code and the
    status. *)
Theorem rejected_download_writes_nothing
    n w name fl pw i f rest_in content rep rest_net e :
  styles_ready w = true ->
  stdin w = FileIndex i :: rest_in ->
  fl !! i = Some f ->
  disk w !! credential_file = Some content ->
  network w = rep :: rest_net ->
  settle (get_file (file_id f) (Dotenv.parse content !! js "auth_token")) rep
    = inr e ->
  downloadFile (S n) name fl pw w
  = showFileManager n name fl pw
      (advance 1 1
         [download_prompt;
          Log (Some info, nl ++ js "Downloading file...");
          Http (get_file (file_id f) (Dotenv.parse content !! js "auth_token"));
          Log (Some failure, nl ++ cross ++ js " Error: " ++ e_message e)] w)
  /\ (forall es, disk (advance 1 1 es w) = disk w)
  /\ (forall code b, rep = Replied code b ->
        e_message e = js "Request failed with status code " ++ decimal code).
Proof.
  intros Hs Hin Hf Hfile Hnet Hset. split; [|split].
  - change (downloadFile (S n) name fl pw w)
      with (downloadFile_body (showFileManager n) name fl pw w).
    rewrite (download_step_rejected _ (quiet_showFileManager n) w name fl pw i f
               rest_in content rep rest_net e) by assumption.
    unfold transfer_failure.
    rewrite (rejected_download_has_no_error_member _ _ _ _ Hset). reflexivity.
  - intros es. destruct w. reflexivity.
  - intros code b ->. simpl in Hset. destruct (is_2xx code); [discriminate|].
    injection Hset as <-. reflexivity.
Qed.

(** X7 at work: the service answers 404 with an error member, which is not
    shown. *)
Lemma rejected_download_writes_nothing_witness :
  downloadFile 1 (js "demo") [a_txt] (js "pw")
    (ready with_credential [FileIndex 0]
           [json_reply 404 None None (Some (js "no such file"))])
  = showFileManager 0 (js "demo") [a_txt] (js "pw")
      (advance 1 1
         [download_prompt;
          Log (Some info, nl ++ js "Downloading file...");
          Http (get_file 1 (Dotenv.parse (js "auth_token=abc") !! js "auth_token"));
          Log (Some failure,
               nl ++ cross ++ js " Error: Request failed with status code 404")]
         (ready with_credential [FileIndex 0]
                [json_reply 404 None None (Some (js "no such file"))])).
Proof.
  destruct (rejected_download_writes_nothing 0
              (ready with_credential [FileIndex 0]
                     [json_reply 404 None None (Some (js "no such file"))])
              (js "demo") [a_txt] (js "pw") 0%nat a_txt [] (js "auth_token=abc")
              (json_reply 404 None None (Some (js "no such file"))) [] _
              eq_refl eq_refl eq_refl eq_refl eq_refl eq_refl) as [E _].
  exact E.
Defined.



(** ** From the access to the transfer (lines 104-106, 216-222, 261 and 307) *)

(** X9.  The credential a transfer loads is the one the access has saved:
    after an access call that the service answered with a token that the
    credential file gives back unchanged, the file manager opens the upload
    or the download the user asks for in a world where loading the
    credential returns that token; and the next answer and reply are the
    ones that come after those of the access and of the file manager. *)
Theorem transfer_after_access_loads_the_token
    n w name pw rep a rest_in rest_net res T :
  styles_ready w = true ->
  stdin w = Credentials name pw :: Action a :: rest_in ->
  network w = rep :: rest_net ->
  settle (get_site name pw) rep = inl res ->
  auth_token (response_data res) = Some T ->
  T <> [] ->
  storable T = true ->
  a <> BackToMenu ->
  (a = DownloadFile -> default [] (files (response_data res)) <> []) ->
  exists w2,
    accessEndpoint (S (S (S n))) w
    = match a with
      | DownloadFile =>
          downloadFile (S n) name (default [] (files (response_data res))) pw
      | _ => uploadFile (S n) name pw
      end w2
    /\ load_credential w2 = (Returned (Some T), w2)
    /\ stdin w2 = rest_in
    /\ network w2 = rest_net.
Proof.
  intros Hs Hin Hnet Hset Htok HT Hstorable Ha Hfl.
  assert (Htruthy : truthy (auth_token (response_data res)) = true).
  { rewrite Htok. destruct T; [congruence|reflexivity]. }
  set (fl := default [] (files (response_data res))) in *.
  set (content := js "auth_token=" ++ default [] (auth_token (response_data res))).
  set (w1 := add_trace (access_events name pw ++ [WriteFile credential_file content])
               (with_file credential_file content (consume 1 1 w))).
  assert (E1 : accessEndpoint (S (S (S n))) w = showFileManager (S (S n)) name fl pw w1).
  { apply (access_step_token _ _ (quiet_showFileManager (S (S n)))
             w name pw rep (Action a :: rest_in) rest_net res); assumption. }
  assert (W1 : styles_ready w1 = true /\ stdin w1 = Action a :: rest_in
               /\ network w1 = rest_net
               /\ disk w1 !! credential_file = Some content).
  { unfold w1. destruct w as [h d k s i nw t]. cbn in Hs, Hin, Hnet. subst.
    repeat split. apply lookup_insert_eq. }
  destruct W1 as (Hs1 & Hin1 & Hnet1 & Hdisk1).
  exists (advance 1 0 (file_manager_events name fl) w1).
  destruct (advance_parts 1 0 (file_manager_events name fl) w1)
    as (_ & A2 & A3 & A4 & _).
  split; [|split; [|split]].
  - rewrite E1.
    change (showFileManager (S (S n)) name fl pw w1)
      with (showFileManager_body (showMainMenu (S n)) (showFileManager (S n))
              (uploadFile (S n)) (downloadFile (S n)) name fl pw w1).
    rewrite (file_manager_step _ _ _ _ w1 name fl pw a rest_in Hs1 Hin1).
    destruct a; [reflexivity| |congruence].
    destruct fl; [exfalso; apply Hfl; reflexivity|reflexivity].
  - unfold load_credential, readFileSync, bind, ret. rewrite A4, Hdisk1.
    unfold content. rewrite Htok. cbn [default from_option id].
    rewrite (parse_credential T Hstorable). reflexivity.
  - rewrite A2, Hin1. reflexivity.
  - rewrite A3, Hnet1. reflexivity.
Qed.

(** X9 at work: the service answers the access with the token abc, and
    the user asks for an upload. *)
Lemma transfer_after_access_loads_the_token_witness :
  exists w2,
    accessEndpoint 3
      (ready ∅ [Credentials (js "demo") (js "pw"); Action UploadFile]
             [json_reply 200 (Some (js "abc")) (Some [a_txt]) None])
    = uploadFile 1 (js "demo") (js "pw") w2
    /\ load_credential w2 = (Returned (Some (js "abc")), w2)
    /\ stdin w2 = []
    /\ network w2 = [].
Proof.
  apply (transfer_after_access_loads_the_token 0
           (ready ∅ [Credentials (js "demo") (js "pw"); Action UploadFile]
                  [json_reply 200 (Some (js "abc")) (Some [a_txt]) None])
           (js "demo") (js "pw")
           (json_reply 200 (Some (js "abc")) (Some [a_txt]) None) UploadFile [] []
           (Response 200 (Parsed (Json (Some (js "abc")) (Some [a_txt]) None None)))
           (js "abc"));
    try reflexivity; discriminate.
Defined.

(** ** What no run does *)

(** X10.  No screen throws: whatever the user answers and the service
    replies, an exception raised in a screen is caught in that screen, so
    the promise of a screen never rejects. *)
Theorem screens_never_throw n w e :
  styles_ready w = true ->
  fst (showMainMenu n w) <> Threw e
  /\ fst (accessEndpoint n w) <> Threw e
  /\ fst (createEndpoint n w) <> Threw e
  /\ (forall name fl pw, fst (showFileManager n name fl pw w) <> Threw e)
  /\ (forall name pw, fst (uploadFile n name pw w) <> Threw e)
  /\ (forall name fl pw, fst (downloadFile n name fl pw w) <> Threw e).
Proof.
  intros Hs.
  destruct (quiet_screens n) as (Hmain & Haccess & Hcreate & Hfm & Hup & Hdown).
  split; [|split; [|split; [|split; [|split]]]].
  - apply (Hmain w Hs).
  - apply (Haccess w Hs).
  - apply (Hcreate w Hs).
  - intros name fl pw. apply (Hfm name fl pw w Hs).
  - intros name pw. apply (Hup name pw w Hs).
  - intros name fl pw. apply (Hdown name fl pw w Hs).
Qed.

(** X10 at work: an upload with no credential file and no reply. *)
Lemma screens_never_throw_witness :
  fst (uploadFile 2 (js "demo") (js "pw") (ready ∅ [FilePath (js "/tmp/a.txt")] []))
  <> Threw (fs_error (js "ENOENT") (js "no such file or directory") credential_file).
Proof.
  destruct (screens_never_throw 2 (ready ∅ [FilePath (js "/tmp/a.txt")] [])
              (fs_error (js "ENOENT") (js "no such file or directory") credential_file)
              eq_refl) as (_ & _ & _ & _ & Hup & _).
  apply Hup.
Defined.

Section Runs.

Lemma allowed_requests home es r :
  Forall (allowed home) es -> In r (requests es) -> allowed home (Http r).
Proof.
  unfold requests. induction 1 as [|e es He _ IH]; [intros []|].
  destruct e; cbn; try exact IH.
  intros [<-|H]; [exact He|apply IH, H].
Qed.

Lemma allowed_writes home es p c :
  Forall (allowed home) es -> In (p, c) (writes es) -> allowed home (WriteFile p c).
Proof.
  unfold writes. induction 1 as [|e es He _ IH]; [intros []|].
  destruct e; cbn; try exact IH.
  intros [[= <- <-]|H]; [exact He|apply IH, H].
Qed.

Lemma allowed_mkdirs home es : Forall (allowed home) es -> mkdirs es = [].
Proof.
  unfold mkdirs. induction 1 as [|e es He _ IH]; [reflexivity|].
  destruct e; cbn; try exact IH. destruct He.
Qed.

Lemma allowed_no_console_error home es line :
  Forall (allowed home) es -> ~ In (LogError line) es.
Proof.
  intros H Hin. rewrite Forall_forall in H. apply list_elem_of_In in Hin.
  exact (H _ Hin).
Qed.

(** A process that gets past the start does only what is allowed, and
    ends, if it ends, with the exit code 0. *)
Lemma run_tame fuel w :
  (forall why, download_dir w <> Blocked why) ->
  (fst (run fuel w) = ExitCode 0 \/ fst (run fuel w) = Running)
  /\ exists es, trace (snd (run fuel w)) = trace (started w) ++ es
                /\ Forall (allowed (homedir w)) es.
Proof.
  intros Hd. rewrite (run_started fuel w Hd).
  destruct (started_parts w) as (Ss & _ & _ & _ & Sh & _).
  destruct (tame_screens fuel) as (Hmain & _).
  destruct (Hmain (started w) Ss) as (_ & _ & (es & Ht & Hes) & Hcode).
  pose proof (proj2 (quiet_showMainMenu fuel (started w) Ss)) as Hquiet.
  rewrite Sh in Hes.
  destruct (showMainMenu fuel (started w)) as [[[]|e|code|] w'];
    cbn [fst snd] in *.
  - split; [left; reflexivity|eauto].
  - exfalso. exact (Hquiet e eq_refl).
  - rewrite (Hcode code eq_refl). split; [left; reflexivity|eauto].
  - split; [right; reflexivity|eauto].
Qed.

End Runs.

(** X11.  A process whose download directory is there or can be made never
    ends by an exception nobody caught nor with an exit code other than 0:
    it ends with the exit code 0 or goes on; and it never writes to the
    standard error with console.error.  So the handler of the last line of
    the program never runs. *)
Theorem process_fails_only_without_download_dir fuel w :
  (forall why, download_dir w <> Blocked why) ->
  trace w = [] ->
  (fst (run fuel w) = ExitCode 0 \/ fst (run fuel w) = Running)
  /\ forall line, ~ In (LogError line) (trace (snd (run fuel w))).
Proof.
  intros Hd Ht. destruct (run_tame fuel w Hd) as (Hend & es & E & Hes).
  split; [exact Hend|]. intros line. rewrite E.
  destruct (started_parts w) as (_ & _ & _ & _ & _ & ->). rewrite Ht.
  intros Hin. apply in_app_or in Hin as [Hin|Hin].
  - destruct (download_dir w); cbn in Hin; [destruct Hin|..];
      destruct Hin as [Hin|[]]; discriminate Hin.
  - exact (allowed_no_console_error _ _ _ Hes Hin).
Qed.

(** X11 at work: the first run. *)
Lemma process_fails_only_without_download_dir_witness :
  fst (run 4 create_run) = ExitCode 0 \/ fst (run 4 create_run) = Running.
Proof.
  apply (process_fails_only_without_download_dir 4 create_run);
    [intros why; discriminate|reflexivity].
Defined.

(** X12.  Every request a process sends is one of the four requests of the
    program: the GET for a site, the POST that creates a site, the POST
    that uploads to a site, or the GET for a file, all of them to the
    service at API_URL. *)
Theorem every_request_is_one_of_four fuel w r :
  (forall why, download_dir w <> Blocked why) ->
  trace w = [] ->
  In r (requests (trace (snd (run fuel w)))) ->
  (exists name pw, r = get_site name pw)
  \/ (exists name pw, r = post_createsite name pw)
  \/ (exists name path authToken, r = post_upload name path authToken)
  \/ (exists id authToken, r = get_file id authToken).
Proof.
  intros Hd Ht Hin. destruct (run_tame fuel w Hd) as (_ & es & E & Hes).
  rewrite E in Hin. destruct (started_parts w) as (_ & _ & _ & _ & _ & Es).
  rewrite Es, Ht in Hin. unfold requests in Hin. rewrite omap_app in Hin.
  apply in_app_or in Hin as [Hin|Hin].
  - destruct (download_dir w); destruct Hin.
  - exact (allowed_requests _ _ _ Hes Hin).
Qed.

(** X12 at work: the request of the first run. *)
Lemma every_request_is_one_of_four_witness :
  (exists name pw, post_createsite (js "demo") (js "pw") = get_site name pw)
  \/ (exists name pw,
        post_createsite (js "demo") (js "pw") = post_createsite name pw)
  \/ (exists name path authToken,
        post_createsite (js "demo") (js "pw") = post_upload name path authToken)
  \/ (exists id authToken,
        post_createsite (js "demo") (js "pw") = get_file id authToken).
Proof.
  apply (every_request_is_one_of_four 4 create_run
           (post_createsite (js "demo") (js "pw")));
    [intros why; discriminate|reflexivity|vm_compute; left; reflexivity].
Defined.

(** X13.  Every file a process writes is the credential file, written with
    auth_token= and a token that is not empty, or a file at a path joined
    to the download directory. *)
Theorem every_write_is_credential_or_download fuel w path content :
  (forall why, download_dir w <> Blocked why) ->
  trace w = [] ->
  In (path, content) (writes (trace (snd (run fuel w)))) ->
  (path = credential_file
   /\ exists token, token <> [] /\ content = js "auth_token=" ++ token)
  \/ (exists name, path = Path.join [DOWNLOAD_DIR w; name]).
Proof.
  intros Hd Ht Hin. destruct (run_tame fuel w Hd) as (_ & es & E & Hes).
  rewrite E in Hin. destruct (started_parts w) as (_ & _ & _ & _ & _ & Es).
  rewrite Es, Ht in Hin. unfold writes in Hin. rewrite omap_app in Hin.
  apply in_app_or in Hin as [Hin|Hin].
  - destruct (download_dir w); destruct Hin.
  - exact (allowed_writes _ _ _ _ Hes Hin).
Qed.

(** X13 at work: the write of the first run. *)
Lemma every_write_is_credential_or_download_witness :
  (credential_file = credential_file
   /\ exists token, token <> [] /\ js "auth_token=abc" = js "auth_token=" ++ token)
  \/ (exists name, credential_file = Path.join [DOWNLOAD_DIR create_run; name]).
Proof.
  apply (every_write_is_credential_or_download 4 create_run
           credential_file (js "auth_token=abc"));
    [intros why; discriminate|reflexivity|vm_compute; left; reflexivity].
Defined.

(** X14.  The download directory is made at most once, as the first thing
    the process does and only when it is not there; no screen makes a
    directory. *)
Theorem download_dir_is_made_at_the_start fuel w :
  (forall why, download_dir w <> Blocked why) ->
  trace w = [] ->
  exists es,
    trace (snd (run fuel w))
    = match download_dir w with
      | Present => []
      | _ => [Mkdir (DOWNLOAD_DIR w)]
      end ++ es
    /\ mkdirs es = [].
Proof.
  intros Hd Ht. destruct (run_tame fuel w Hd) as (_ & es & E & Hes).
  exists es. split; [|exact (allowed_mkdirs _ _ Hes)].
  rewrite E. destruct (started_parts w) as (_ & _ & _ & _ & _ & ->).
  rewrite Ht. reflexivity.
Qed.

(** X14 at work: the first run makes the directory and nothing else. *)
Lemma download_dir_is_made_at_the_start_witness :
  exists es,
    trace (snd (run 4 create_run))
    = [Mkdir (js "/home/u/Downloads/cfileshare")] ++ es
    /\ mkdirs es = [].
Proof.
  apply (download_dir_is_made_at_the_start 4 create_run);
    [intros why; discriminate|reflexivity].
Defined.

(** ** The screens and the answers *)

Section Enough.

Lemma agree_more n m :
  agree n (showMainMenu n) (showMainMenu (n + m))
  /\ agree n (accessEndpoint n) (accessEndpoint (n + m))
  /\ agree n (createEndpoint n) (createEndpoint (n + m))
  /\ (forall name fl pw,
        agree n (showFileManager n name fl pw) (showFileManager (n + m) name fl pw))
  /\ (forall name pw, agree n (uploadFile n name pw) (uploadFile (n + m) name pw))
  /\ (forall name fl pw,
        agree n (downloadFile n name fl pw) (downloadFile (n + m) name fl pw)).
Proof.
  induction m as [|m (Hmain & Haccess & Hcreate & Hfm & Hup & Hdown)].
  - rewrite Nat.add_0_r. repeat split; intros; apply agree_same.
  - rewrite Nat.add_succ_r.
    destruct (agree_screens (n + m))
      as (Gmain & Gaccess & Gcreate & Gfm & Gup & Gdown).
    split; [|split; [|split; [|split; [|split]]]];
      [| | |intros name fl pw|intros name pw|intros name fl pw];
      intros w Hw.
    + rewrite (Hmain w Hw). apply Gmain. lia.
    + rewrite (Haccess w Hw). apply Gaccess. lia.
    + rewrite (Hcreate w Hw). apply Gcreate. lia.
    + rewrite (Hfm name fl pw w Hw). apply Gfm. lia.
    + rewrite (Hup name pw w Hw). apply Gup. lia.
    + rewrite (Hdown name fl pw w Hw). apply Gdown. lia.
Qed.

End Enough.

(** X15.  A screen opens another screen only after it has taken an answer
    of the user: a run in which the user gives fewer than [fuel] answers
    opens at most [fuel] screens, so it is the same run when it is cut
    after [fuel] screens and when it is cut later.  The recursion of the
    screens is as deep as the user has given answers, and no deeper. *)
Theorem answers_bound_the_screens fuel more w :
  (length (stdin w) < fuel)%nat ->
  run (fuel + more) w = run fuel w
  /\ showMainMenu (fuel + more) w = showMainMenu fuel w
  /\ accessEndpoint (fuel + more) w = accessEndpoint fuel w
  /\ createEndpoint (fuel + more) w = createEndpoint fuel w
  /\ (forall name fl pw,
        showFileManager (fuel + more) name fl pw w = showFileManager fuel name fl pw w)
  /\ (forall name pw, uploadFile (fuel + more) name pw w = uploadFile fuel name pw w)
  /\ (forall name fl pw,
        downloadFile (fuel + more) name fl pw w = downloadFile fuel name fl pw w).
Proof.
  intros Hw.
  destruct (agree_more fuel more) as (Hmain & Haccess & Hcreate & Hfm & Hup & Hdown).
  split; [|split; [|split; [|split; [|split; [|split]]]]].
  - destruct (download_dir w) as [| |why] eqn:Ed.
    + rewrite !run_started by (intros why; congruence).
      rewrite <- (Hmain (started w)); [reflexivity|].
      destruct (started_parts w) as (_ & -> & _). exact Hw.
    + rewrite !run_started by (intros why; congruence).
      rewrite <- (Hmain (started w)); [reflexivity|].
      destruct (started_parts w) as (_ & -> & _). exact Hw.
    + destruct w as [h d k s i nw t]. cbn in Ed. subst d.
      destruct s; reflexivity.
  - symmetry. apply Hmain, Hw.
  - symmetry. apply Haccess, Hw.
  - symmetry. apply Hcreate, Hw.
  - intros name fl pw. symmetry. apply Hfm, Hw.
  - intros name pw. symmetry. apply Hup, Hw.
  - intros name fl pw. symmetry. apply Hdown, Hw.
Qed.

(** X15 at work: the first run has three answers. *)
Lemma answers_bound_the_screens_witness :
  run (4 + 100) create_run = run 4 create_run.
Proof.
  destruct (answers_bound_the_screens 4 100 create_run
              ltac:(vm_compute; lia)) as [E _].
  exact E.
Defined.

(** ** The validator and the filter (lines 242-255) *)

(** X16.  The validator and the filter of the upload prompt agree on the
    path: an input the validator accepts is handed to the upload, by the
    filter, as a path that is not empty, exists, and holds at most
    5 * 1024 * 1024 bytes. *)
Theorem accepted_input_is_uploadable (d : Upload.disk) (input : text) :
  Upload.validate d input = Upload.Accepted ->
  Upload.filter input <> []
  /\ exists size, d (Upload.filter input) = Some size
                  /\ size <= Upload.MAX_FILE_SIZE.
Proof.
  unfold Upload.validate, Upload.filter, Upload.existsSync, Upload.statSync_size.
  set (p := stripQuotes (trim input)).
  destruct p as [|c p']; cbn [nonEmpty negb]; [discriminate|].
  destruct (d (c :: p')) as [size|]; cbn [negb]; [|discriminate].
  destruct (Upload.MAX_FILE_SIZE <? size) eqn:E; [discriminate|]. intros _.
  split; [discriminate|]. exists size. split; [reflexivity|].
  apply N.ltb_ge. exact E.
Qed.

(** X16 at work: a file of three bytes, given between apostrophes. *)
Lemma accepted_input_is_uploadable_witness :
  Upload.filter (js " 'a.txt' ") <> []
  /\ exists size, one_file (js "a.txt") 3 (Upload.filter (js " 'a.txt' ")) = Some size
                  /\ size <= Upload.MAX_FILE_SIZE.
Proof.
  apply (accepted_input_is_uploadable (one_file (js "a.txt") 3) (js " 'a.txt' ")).
  vm_compute. reflexivity.
Defined.

(** ** The path given to the upload (lines 243 and 255) *)

Section Quotes.

Lemma quote_is_no_blank q : isQuote q = true -> isWhiteSpace q = false.
Proof.
  unfold isQuote. intros H. apply orb_true_iff in H as [H|H];
    apply N.eqb_eq in H; subst q; reflexivity.
Qed.

Lemma trim_quoted q p : isQuote q = true -> trim (q :: p ++ [q]) = q :: p ++ [q].
Proof.
  intros Hq. pose proof (quote_is_no_blank q Hq) as Hb.
  unfold trim, trimEnd. cbn [trimStart]. rewrite Hb.
  cbn [rev]. rewrite rev_app_distr. cbn [rev app trimStart]. rewrite Hb.
  cbn [rev]. rewrite rev_app_distr, rev_involutive. reflexivity.
Qed.

Lemma stripQuotes_id p :
  Forall (fun c => isQuote c = false) p -> stripQuotes p = p.
Proof.
  induction 1 as [|c p Hc _ IH]; [reflexivity|].
  unfold stripQuotes in *. cbn [List.filter]. rewrite Hc. cbn [negb].
  rewrite IH. reflexivity.
Qed.

Lemma stripQuotes_app a b : stripQuotes (a ++ b) = stripQuotes a ++ stripQuotes b.
Proof. unfold stripQuotes. apply List.filter_app. Qed.

End Quotes.

(** X17.  The path the upload gets from the user's input has no double
    quote and no apostrophe in it; and a path without such characters that
    is given between two quote characters comes out as it is, blanks at
    its ends included. *)
Theorem filter_unquotes input q p :
  isQuote q = true ->
  Forall (fun c => isQuote c = false) p ->
  Forall (fun c => isQuote c = false) (Upload.filter input)
  /\ Upload.filter (q :: p ++ [q]) = p.
Proof.
  intros Hq Hp. split.
  - unfold Upload.filter, stripQuotes. apply Forall_forall. intros c Hc.
    apply list_elem_of_In, List.filter_In in Hc as [_ Hc].
    apply negb_true_iff in Hc. exact Hc.
  - unfold Upload.filter. rewrite (trim_quoted q p Hq).
    change (q :: p ++ [q]) with ([q] ++ p ++ [q]).
    rewrite !stripQuotes_app, (stripQuotes_id p Hp).
    unfold stripQuotes. cbn [List.filter]. rewrite Hq. cbn [negb app].
    apply app_nil_r.
Qed.

(** X17 at work: a path with a blank at its start, between apostrophes. *)
Lemma filter_unquotes_witness :
  Upload.filter (js "' a.txt'") = js " a.txt".
Proof.
  destruct (filter_unquotes [] 39 (js " a.txt") eq_refl
              ltac:(repeat constructor)) as [_ E].
  exact E.
Defined.

(** ** The path of a download (lines 15 and 318) *)

(** X18.  The path of a download whose file name has no parent segment
    starts with the download directory and goes on, if at all, with a
    separator: such a file is written in the download directory or below
    it. *)
Theorem download_path_stays_below_download_dir w name :
  noParent name = true ->
  exists more,
    Path.join [DOWNLOAD_DIR w; name] = DOWNLOAD_DIR w ++ more
    /\ (more = [] \/ head more = Some 47).
Proof.
  intros Hname. destruct (download_dir_normal w) as (p & E & Hp & Hlast & Hst).
  rewrite E. eapply join_below; [|exact Hname].
  apply normalize_normal; assumption.
Qed.

(** X18 at work: a file name with a directory in it. *)
Lemma download_path_stays_below_download_dir_witness :
  exists more,
    Path.join [DOWNLOAD_DIR (ready ∅ [] []); js "notes/./a.txt"]
    = DOWNLOAD_DIR (ready ∅ [] []) ++ more
    /\ (more = [] \/ head more = Some 47).
Proof.
  apply (download_path_stays_below_download_dir (ready ∅ [] []) (js "notes/./a.txt")).
  reflexivity.
Defined.

Section Home.
Import Path.

Lemma normalize_below abs st D :
  normal abs st D ->
  normalize (D ++ 47 :: js "Downloads" ++ 47 :: js "cfileshare")
  = D ++ 47 :: js "Downloads" ++ 47 :: js "cfileshare".
Proof.
  intros HD. pose proof (normal_parts _ _ _ HD) as (HDne & Habs & Hlast & Hsplit).
  destruct HD as (Hst & Hkept & ED).
  pose proof (rev_not_nil st Hst) as Hrev.
  unfold normalize.
  assert (Hq : nonEmpty (D ++ 47 :: js "Downloads" ++ 47 :: js "cfileshare") = true).
  { apply nonEmpty_true. destruct D; discriminate. }
  rewrite Hq. cbn [negb].
  assert (Habs' : bool_decide
                    (head (D ++ 47 :: js "Downloads" ++ 47 :: js "cfileshare")
                     = Some 47) = abs).
  { rewrite <- Habs. destruct D; [congruence|reflexivity]. }
  assert (Htrail : bool_decide
                     (last (D ++ 47 :: js "Downloads" ++ 47 :: js "cfileshare")
                      = Some 47) = false).
  { apply bool_decide_eq_false_2.
    change (D ++ 47 :: js "Downloads" ++ 47 :: js "cfileshare")
      with (D ++ (47 :: js "Downloads" ++ 47 :: js "cfileshar") ++ [101]).
    rewrite app_assoc, last_snoc. discriminate. }
  rewrite Habs', Htrail. unfold normalizeString.
  rewrite split_app_sep, foldl_app, Hsplit.
  change (split (js "Downloads" ++ 47 :: js "cfileshare"))
    with [js "Downloads"; js "cfileshare"].
  cbn [foldl].
  rewrite (segment_plainName _ _ (js "Downloads")) by reflexivity.
  rewrite (segment_plainName _ _ (js "cfileshare")) by reflexivity.
  cbn [rev]. rewrite <- app_assoc. cbn [app].
  rewrite (unsplit_app (rev st) [js "Downloads"; js "cfileshare"] Hrev).
  set (B := unsplit (rev st)) in *.
  assert (Hne : nonEmpty
                  (B ++ concat (List.map (cons 47) [js "Downloads"; js "cfileshare"]))
                = true).
  { apply nonEmpty_true. destruct B; discriminate. }
  rewrite Hne. cbn [negb]. rewrite ED.
  destruct abs; cbn [app List.map concat]; rewrite <- ?app_assoc, ?app_nil_r;
    reflexivity.
Qed.

End Home.

(** X19.  When the home directory is a path in normal form (the root or
    not, and then segments that are kept), the download directory is the
    home directory followed by /Downloads/cfileshare. *)
Theorem download_dir_is_below_home w abs st :
  normal abs st (homedir w) ->
  DOWNLOAD_DIR w = homedir w ++ js "/Downloads/cfileshare".
Proof.
  intros HD. pose proof (normal_parts _ _ _ HD) as (Hne & _).
  unfold DOWNLOAD_DIR, Path.join. cbn [List.filter].
  rewrite (nonEmpty_true _ Hne). cbn [nonEmpty].
  change (Path.unsplit [homedir w; js "Downloads"; js "cfileshare"])
    with (homedir w ++ 47 :: js "Downloads" ++ 47 :: js "cfileshare").
  apply (normalize_below abs st). exact HD.
Qed.

(** X19 at work: the home directory /home/u. *)
Lemma download_dir_is_below_home_witness :
  DOWNLOAD_DIR (ready ∅ [] []) = js "/home/u/Downloads/cfileshare".
Proof.
  apply (download_dir_is_below_home (ready ∅ [] []) true [js "u"; js "home"]).
  split; [discriminate|]. split; [|reflexivity].
  apply kept_name; [reflexivity|]. apply kept_name; [reflexivity|]. apply kept_nil.
Defined.

(** ** The definitions on examples *)

Example trim_example : trim (js "  'a b.txt' ") = js "'a b.txt'".
Proof. reflexivity. Qed.

Example filter_example : Upload.filter (js "  'a b.txt' ") = js "a b.txt".
Proof. reflexivity. Qed.

Example join_download_dir :
  Path.join [js "/home/u"; js "Downloads"; js "cfileshare"]
  = js "/home/u/Downloads/cfileshare".
Proof. vm_compute. reflexivity. Qed.

Example join_file_name :
  Path.join [js "/home/u/Downloads/cfileshare"; js "a.txt"]
  = js "/home/u/Downloads/cfileshare/a.txt".
Proof. vm_compute. reflexivity. Qed.

Example join_dots :
  Path.join [js "/a/b"; js "./c//d/../e/"] = js "/a/b/c/e/".
Proof. vm_compute. reflexivity. Qed.

Example parse_plain_value :
  Dotenv.parse (js "auth_token=abc") = {[ js "auth_token" := js "abc" ]}.
Proof. vm_compute. reflexivity. Qed.

Example parse_trims_value :
  Dotenv.parse (js "  KEY =  some value  ") !! js "KEY" = Some (js "some value").
Proof. vm_compute. reflexivity. Qed.

Example parse_cuts_comment :
  Dotenv.parse (js "auth_token=abc #def") !! js "auth_token" = Some (js "abc").
Proof. vm_compute. reflexivity. Qed.

Example parse_strips_quotes :
  Dotenv.parse (js "auth_token='a # b' # c") !! js "auth_token" = Some (js "a # b").
Proof. vm_compute. reflexivity. Qed.

Example parse_two_lines :
  Dotenv.parse (js "A=1" ++ [13; 10] ++ js "B=2" ++ [10] ++ js "A=3")
  = {[ js "A" := js "3"; js "B" := js "2" ]}.
Proof. vm_compute. reflexivity. Qed.

Example parse_without_entry :
  Dotenv.parse (js "garbage") !! js "auth_token" = None.
Proof. vm_compute. reflexivity. Qed.

(** ** The scenarios of the specification *)

(** Create endpoint demo with password pw; the service returns the token
    abc: the credential file holds auth_token=abc and the main menu is
    shown again (the user then leaves). *)
Example create_scenario :
  let r := run 4 (World (js "/home/u") Absent ∅ false
                    [Choice CreateEndpoint; Credentials (js "demo") (js "pw");
                     Choice Exit]
                    [json_reply 200 (Some (js "abc")) None None] []) in
  fst r = ExitCode 0
  /\ disk (snd r) !! js ".env" = Some (js "auth_token=abc")
  /\ requests (trace (snd r)) = [post_createsite (js "demo") (js "pw")]
  /\ stdin (snd r) = [].
Proof. vm_compute. repeat split; reflexivity. Qed.

(** Access endpoint demo; the service returns the token abc and the file
    a.txt with id 1: the file manager lists it; the download of index 0
    asks for /getfile/1 with Authorization abc and writes the bytes to
    a.txt in the download directory. *)
Example access_and_download_scenario :
  let r := run 8 (World (js "/home/u") Present ∅ false
                    [Choice AccessEndpoint; Credentials (js "demo") (js "pw");
                     Action DownloadFile; FileIndex 0; Action BackToMenu;
                     Choice Exit]
                    [json_reply 200 (Some (js "abc")) (Some [a_txt]) None;
                     Replied 200 (Body (js "hello") None)] []) in
  fst r = ExitCode 0
  /\ In (None, js "1. " ++ page ++ js " a.txt") (logged (trace (snd r)))
  /\ List.map (fun q => (url q, headers q)) (requests (trace (snd r)))
     = [(API_URL ++ js "/site/demo", []);
        (API_URL ++ js "/getfile/1", [(js "Authorization", Some (js "abc"))])]
  /\ disk (snd r) !! js ".env" = Some (js "auth_token=abc")
  /\ disk (snd r) !! js "/home/u/Downloads/cfileshare/a.txt" = Some (js "hello").
Proof.
  vm_compute. split; [reflexivity|]. split; [|repeat split; reflexivity].
  do 6 right. left. reflexivity.
Qed.

(** With no files, the file manager says so, and the download action only
    shows the file manager again. *)
Example empty_listing_scenario :
  let r := showFileManager 3 (js "demo") [] (js "pw")
             (ready ∅ [Action DownloadFile; Action BackToMenu] []) in
  logged (trace (snd r))
  = [(Some title, nl ++ js "     CShare - Secure File Sharing" ++ nl);
     (Some info, nl ++ js "Endpoint: demo");
     (Some endpoint, js "GET /site/demo" ++ nl);
     (None, js "No files found" ++ nl);
     (Some info, nl ++ js "No files to download");
     (Some title, nl ++ js "     CShare - Secure File Sharing" ++ nl);
     (Some info, nl ++ js "Endpoint: demo");
     (Some endpoint, js "GET /site/demo" ++ nl);
     (None, js "No files found" ++ nl);
     (Some title, nl ++ js "     CShare - Secure File Sharing" ++ nl)]
  /\ requests (trace (snd r)) = [].
Proof. vm_compute. split; reflexivity. Qed.
